(** * HerniaOrtiz: a shallow embedding of the image-to-history pipeline

    The Django application under [app/Hernia] validates an uploaded X-ray,
    sends it to an inference service, draws the predictions, and stores a
    history record.  This file embeds [services.py], [auth_service.py],
    the upload and deletion views of [views.py] and the pure helpers of
    [utils.py], and proves the properties the specification states about
    them, together with further properties read off the code.

    Layout: the Python layer (exceptions, numbers, strings, SHA-256), the
    world the services act on, the services themselves, and then the
    theorems. *)

From Stdlib Require Import ZArith String Ascii List Bool Lia.
From Stdlib Require Floats.
From stdpp Require Import gmap strings list pretty.
Import Floats.PrimFloat Floats.SpecFloat Floats.FloatOps.

Set Warnings "-inexact-float".
Local Open Scope string_scope.
Local Open Scope Z_scope.

(* ================================================================== *)
(** * The Python layer *)
(* ================================================================== *)

(** ** Exceptions

    Every class below derives from Python's [Exception], so a bare
    [except Exception] handler catches each of them.  [DoesNotExist] carries
    the model it belongs to ([Historial.DoesNotExist] and
    [User.DoesNotExist] are different classes). *)

Inductive exn_class :=
| DoesNotExist (model : string)
| MultipleObjectsReturned (model : string)
| ValidationError
| ValueError
| TypeError
| KeyError
| IndexError
| AttributeError
| RequestException
| HTTPError
| UnidentifiedImageError
| CvError
| OSError
| OverflowError
| DatabaseError.

Record exn := Exn { exn_cls : exn_class; exn_msg : string }.

Global Instance exn_class_eq_dec : EqDecision exn_class.
Proof. solve_decision. Defined.

Global Instance exn_eq_dec : EqDecision exn.
Proof. solve_decision. Defined.

(** [isinstance e cls], for the handlers of the source: [HTTPError] derives
    from [requests.RequestException]; the other classes are matched by
    themselves. *)
Definition isinstance (e : exn) (cls : exn_class) : bool :=
  match exn_cls e, cls with
  | HTTPError, RequestException => true
  | c, d => bool_decide (c = d)
  end.

Inductive outcome (A : Type) :=
| Return (a : A)
| Raise (e : exn).
Arguments Return {A} a.
Arguments Raise {A} e.

(** ** Numbers

    A JSON number reaches Python as an [int] or as a binary64 [float]. *)

Inductive number :=
| PyInt (z : Z)
| PyFloat (f : float).

(** The integer nearest to [N * 2^e], ties to the even one. *)
Definition round_half_even_scaled (N e : Z) : Z :=
  if 0 <=? e then N * 2 ^ e
  else
    let d := 2 ^ (- e) in
    let q := N / d in
    let r := N mod d in
    match 2 * r ?= d with
    | Lt => q
    | Gt => q + 1
    | Eq => if Z.even q then q else q + 1
    end.

(** The binary64 value nearest to [(-1)^s * n / 100]. *)
Definition float_of_hundredths (s : bool) (n : Z) : float :=
  match n with
  | Z.pos p => SF2Prim (SFdiv prec emax (S754_finite s p 0) (S754_finite false 100 0))
  | _ => SF2Prim (S754_zero s)
  end.

(** [round(x, 2)] on a float: the exact value is rounded to two decimals,
    half to even, and the decimal is read back as the nearest float; zeros,
    infinities and NaN are returned as they are. *)
Definition float_round2 (x : float) : float :=
  match Prim2SF x with
  | S754_finite s m e => float_of_hundredths s (round_half_even_scaled (100 * Z.pos m) e)
  | _ => x
  end.

(** [x * 100] and [round(x, 2)] on numbers; an [int] stays an [int]. *)
Definition num_times_100 (x : number) : number :=
  match x with
  | PyInt z => PyInt (z * 100)
  | PyFloat f => PyFloat (f * 100)%float
  end.

Definition py_round2 (x : number) : number :=
  match x with
  | PyInt z => PyInt z
  | PyFloat f => PyFloat (float_round2 f)
  end.

(** [format(x, '.2f')]. *)
Definition two_digits (n : Z) : string :=
  if n <? 10 then "0" +:+ pretty n else pretty n.

Definition format_hundredths (s : bool) (n : Z) : string :=
  (if s then "-" else "") +:+ pretty (n / 100) +:+ "." +:+ two_digits (n mod 100).

Definition float_format_2f (x : float) : string :=
  match Prim2SF x with
  | S754_finite s m e => format_hundredths s (round_half_even_scaled (100 * Z.pos m) e)
  | S754_zero s => format_hundredths s 0
  | S754_infinity s => if s then "-inf" else "inf"
  | S754_nan => "nan"
  end.

Definition float_of_int (z : Z) : float :=
  match z with
  | Z0 => 0%float
  | Z.pos p => SF2Prim (binary_normalize prec emax (Z.pos p) 0 false)
  | Z.neg p => SF2Prim (binary_normalize prec emax (Z.neg p) 0 true)
  end.

(** [format(x, '.2f')] on a number: an [int] is first converted to a
    float, which raises [OverflowError] when it is beyond the range of the
    floats. *)
Definition format_2f (x : number) : outcome string :=
  match x with
  | PyInt z =>
      match Prim2SF (float_of_int z) with
      | S754_infinity _ => Raise (Exn OverflowError "int too large to convert to float")
      | _ => Return (float_format_2f (float_of_int z))
      end
  | PyFloat f => Return (float_format_2f f)
  end.

(** ** Strings

    A [str] is modelled by its UTF-8 bytes.  The separator of every split
    in the source is the ASCII dot, which no multi-byte sequence contains,
    so splitting bytes and splitting code points agree.  [py_lower] lowers
    the ASCII capitals only.  It stands for [lower()] inside the extension
    check, where the difference cannot be seen: no text with a character
    outside ASCII lowers to one of the allowed extensions (the one
    character that lowers into ASCII, the Kelvin sign, gives the letter
    k).  Where the lowered text is itself the result, [str_lower] is
    used. *)

Definition dot : ascii := "."%char.

(** [s.split(sep)]: always at least one segment. *)
Fixpoint py_split (sep : ascii) (s : string) : list string :=
  match s with
  | EmptyString => [EmptyString]
  | String c rest =>
      if Ascii.eqb c sep then EmptyString :: py_split sep rest
      else
        match py_split sep rest with
        | seg :: segs => String c seg :: segs
        | [] => [String c EmptyString]
        end
  end.

(** The cut at the last separator, if there is one. *)
Fixpoint rpartition (sep : ascii) (s : string) : option (string * string) :=
  match s with
  | EmptyString => None
  | String c rest =>
      match rpartition sep rest with
      | Some (a, b) => Some (String c a, b)
      | None => if Ascii.eqb c sep then Some (EmptyString, rest) else None
      end
  end.

(** [s.rsplit(sep, 1)]. *)
Definition py_rsplit1 (sep : ascii) (s : string) : list string :=
  match rpartition sep s with
  | Some (a, b) => [a; b]
  | None => [s]
  end.

(** [l[-1]] on a list that the caller knows to be non-empty. *)
Definition last_item (l : list string) : string := List.last l EmptyString.

Definition lower_ascii (c : ascii) : ascii :=
  let n := N_of_ascii c in
  if ((65 <=? n) && (n <=? 90))%N then ascii_of_N (n + 32) else c.

Fixpoint py_lower (s : string) : string :=
  match s with
  | EmptyString => EmptyString
  | String c rest => String (lower_ascii c) (py_lower rest)
  end.

(** [s.lower()] in full.  On a text of ASCII characters it lowers the
    capitals A-Z; what it does to a text with other characters is the
    Unicode case mapping, which is left as the parameter [lower_unicode]. *)
Definition is_ascii (s : string) : bool :=
  forallb (λ c, (N_of_ascii c <? 128)%N) (list_ascii_of_string s).

Definition str_lower (lower_unicode : string → string) (s : string) : string :=
  if is_ascii s then py_lower s else lower_unicode s.

Fixpoint has_char (c : ascii) (s : string) : bool :=
  match s with
  | EmptyString => false
  | String d rest => Ascii.eqb d c || has_char c rest
  end.

(** [x in {...}] for a set literal of strings. *)
Definition str_in (x : string) (l : list string) : bool :=
  existsb (String.eqb x) l.

(** ** SHA-256 ([hashlib.sha256(data).hexdigest()])

    FIPS 180-4 over 32-bit words kept in [Z], reduced modulo [2^32] after
    every addition. *)

Module Sha256.

Definition mask32 : Z := 4294967295.
Definition add32 (a b : Z) : Z := Z.land (a + b) mask32.
Definition rotr (n x : Z) : Z :=
  Z.land (Z.lor (Z.shiftr x n) (Z.shiftl x (32 - n))) mask32.
Definition not32 (x : Z) : Z := Z.lxor x mask32.

Definition Ch (x y z : Z) : Z := Z.lxor (Z.land x y) (Z.land (not32 x) z).
Definition Maj (x y z : Z) : Z :=
  Z.lxor (Z.lxor (Z.land x y) (Z.land x z)) (Z.land y z).
Definition Sigma0 (x : Z) : Z := Z.lxor (Z.lxor (rotr 2 x) (rotr 13 x)) (rotr 22 x).
Definition Sigma1 (x : Z) : Z := Z.lxor (Z.lxor (rotr 6 x) (rotr 11 x)) (rotr 25 x).
Definition sigma0 (x : Z) : Z := Z.lxor (Z.lxor (rotr 7 x) (rotr 18 x)) (Z.shiftr x 3).
Definition sigma1 (x : Z) : Z := Z.lxor (Z.lxor (rotr 17 x) (rotr 19 x)) (Z.shiftr x 10).

(** The constants of FIPS 180-4: the first 32 bits of the fractional parts
    of the cube roots of the first 64 primes, and, for the initial hash
    value, of the square roots of the first 8 primes. *)
Definition is_prime (n : Z) : bool :=
  (1 <? n) && forallb (λ d, negb (n mod d =? 0)) (map Z.of_nat (seq 2 (Z.to_nat n - 2))).

Definition primes : list Z :=
  Eval vm_compute in filter (λ n, is_prime n = true) (map Z.of_nat (seq 2 310)).

(** The integer cube root of a number below [2^108], bit by bit. *)
Definition cube_root (n : Z) : Z :=
  fold_left (λ r b, let c := r + 2 ^ Z.of_nat b in if c * c * c <=? n then c else r)
            (rev (seq 0 36)) 0.

Definition frac32_cube_root (p : Z) : Z := Z.land (cube_root (p * 2 ^ 96)) mask32.
Definition frac32_square_root (p : Z) : Z := Z.land (Z.sqrt (p * 2 ^ 64)) mask32.

Definition K : list Z := Eval vm_compute in map frac32_cube_root primes.

Record state := State {
  h0 : Z; h1 : Z; h2 : Z; h3 : Z; h4 : Z; h5 : Z; h6 : Z; h7 : Z }.

Definition initial : state :=
  Eval vm_compute in
    match map frac32_square_root primes with
    | a :: b :: c :: d :: e :: f :: g :: h :: _ => State a b c d e f g h
    | _ => State 0 0 0 0 0 0 0 0
    end.

(** The padded message: the bytes, [0x80], zeros up to 56 modulo 64, and
    the bit length on eight bytes, most significant first. *)
Definition bytes_of (s : string) : list Z :=
  map (fun c => Z.of_N (N_of_ascii c)) (list_ascii_of_string s).

Definition be_bytes (count : nat) (x : Z) : list Z :=
  map (fun i => Z.land (Z.shiftr x (8 * Z.of_nat i)) 255) (rev (seq 0 count)).

Definition pad (msg : list Z) : list Z :=
  let len := Z.of_nat (length msg) in
  let zeros := Z.to_nat ((55 - len) mod 64) in
  msg ++ [128] ++ repeat 0 zeros ++ be_bytes 8 (8 * len).

Fixpoint words_of (fuel : nat) (bs : list Z) : list Z :=
  match fuel, bs with
  | S fuel', b0 :: b1 :: b2 :: b3 :: rest =>
      (((b0 * 256 + b1) * 256 + b2) * 256 + b3) :: words_of fuel' rest
  | _, _ => []
  end.

(** The message schedule: sixteen words of the block, then forty-eight
    derived ones. *)
Fixpoint extend (count : nat) (w : list Z) : list Z :=
  match count with
  | O => w
  | S count' =>
      let i := length w in
      let at_back k := nth (i - k) w 0 in
      extend count'
        (w ++ [add32 (add32 (sigma1 (at_back 2%nat)) (at_back 7%nat))
                     (add32 (sigma0 (at_back 15%nat)) (at_back 16%nat))])
  end.

Definition round (st : state) (kw : Z * Z) : state :=
  let t1 := add32 (add32 (add32 (h7 st) (Sigma1 (h4 st)))
                         (add32 (Ch (h4 st) (h5 st) (h6 st)) (fst kw))) (snd kw) in
  let t2 := add32 (Sigma0 (h0 st)) (Maj (h0 st) (h1 st) (h2 st)) in
  State (add32 t1 t2) (h0 st) (h1 st) (h2 st) (add32 (h3 st) t1) (h4 st) (h5 st) (h6 st).

Definition compress (st : state) (block : list Z) : state :=
  let w := extend 48 block in
  let r := fold_left round (combine K w) st in
  State (add32 (h0 st) (h0 r)) (add32 (h1 st) (h1 r)) (add32 (h2 st) (h2 r))
        (add32 (h3 st) (h3 r)) (add32 (h4 st) (h4 r)) (add32 (h5 st) (h5 r))
        (add32 (h6 st) (h6 r)) (add32 (h7 st) (h7 r)).

Fixpoint blocks (fuel : nat) (ws : list Z) (st : state) : state :=
  match fuel with
  | O => st
  | S fuel' =>
      match ws with
      | [] => st
      | _ => blocks fuel' (skipn 16 ws) (compress st (firstn 16 ws))
      end
  end.

Definition digest (s : string) : state :=
  let bs := pad (bytes_of s) in
  let ws := words_of (length bs) bs in
  blocks (length ws) ws initial.

Definition hexchar (n : Z) : ascii :=
  match n with
  | 0 => "0" | 1 => "1" | 2 => "2" | 3 => "3" | 4 => "4" | 5 => "5"
  | 6 => "6" | 7 => "7" | 8 => "8" | 9 => "9" | 10 => "a" | 11 => "b"
  | 12 => "c" | 13 => "d" | 14 => "e" | _ => "f"
  end%char.

Definition nibble (w : Z) (i : Z) : ascii :=
  hexchar (Z.land (Z.shiftr w (4 * i)) 15).

Definition hexword (w : Z) (tail : string) : string :=
  String (nibble w 7) (String (nibble w 6) (String (nibble w 5) (String (nibble w 4)
  (String (nibble w 3) (String (nibble w 2) (String (nibble w 1) (String (nibble w 0)
  tail))))))).

Definition hex_of_state (st : state) : string :=
  hexword (h0 st) (hexword (h1 st) (hexword (h2 st) (hexword (h3 st)
  (hexword (h4 st) (hexword (h5 st) (hexword (h6 st) (hexword (h7 st) ""))))))).

Definition hexdigest (s : string) : string := hex_of_state (digest s).

End Sha256.

(* ================================================================== *)
(** * The world the services act on *)
(* ================================================================== *)

(** ** Values *)

Definition blob := string.

(** An aware [datetime]: the instant in seconds, and the offset from UTC in
    minutes under which it is shown. *)
Record datetime := DateTime { instant : Z; utcoffset : Z }.

(** [pytz.timezone('America/Guayaquil')]: five hours behind UTC. *)
Definition ECUADOR_TZ : Z := -300.
Definition astimezone (d : datetime) (tz : Z) : datetime := DateTime (instant d) tz.

Record User := {
  u_id : Z;
  u_username : string;
  u_email : string;
  u_password : string;
  u_is_active : bool;
  u_is_superuser : bool }.

(** A row of [Historial], without its primary key (the key of the table);
    [h_imagen] is the name of the stored file (empty: no file). *)
Record Historial := {
  h_user : Z;
  h_imagen : string;
  h_porcentaje : number;
  h_grupo : string;
  h_paciente_nombre : string;
  h_fecha_imagen : datetime }.

Record Imagen := {
  i_imagen : string;
  i_paciente_nombre : string;
  i_fecha : datetime }.

Record UploadedFile := { f_name : string; f_size : Z; f_content : blob }.

(** What [Image.open] yields: the size read from the header. *)
Record PilImage := { pil_size : Z * Z; pil_data : blob }.

(** The inference payload: a dictionary with an optional [predictions]
    list; each prediction has optional [class], [confidence] and [points],
    read in the source with [.get] or [in]; a point is a dictionary read
    with [p['x']] and [p['y']]. *)
Record point := { pt_x : option number; pt_y : option number }.

Record prediction := {
  p_class : option string;
  p_confidence : option number;
  p_points : option (list point) }.

Record inference_result := { r_predictions : option (list prediction) }.

Definition color := (Z * Z * Z)%type.

(** A cv2 array, as the operations that produced it. *)
Inductive image :=
| Pixels (src : PilImage)
| CvtColor (code : string) (src : image)
| FillPoly (src : image) (pts : list (Z * Z)) (c : color)
| AddWeighted (src1 : image) (alpha : float) (src2 : image) (beta gamma : float)
| Polylines (src : image) (pts : list (Z * Z)) (closed : bool) (c : color) (thickness : Z)
| PutText (src : image) (text : string) (org : Z * Z) (font : string)
          (scale : float) (c : color) (thickness : Z).

(** ** External calls and their record *)

Inductive op :=
| DbSelect (table : string)
| DbInsert (table : string)
| DbUpdate (table : string) (pk : Z)
| DbDelete (table : string) (pk : Z)
| Signal (name table : string)
| StorageSave (name : string)
| StorageDelete (name : string)
| HttpGet (url : string)
| Infer (url model_id : string)
| PilOpen
| PilVerify
| PilConvert
| PilSave
| FileSeek
| NpArray
| CvCall (fn : string).

Inductive event :=
| Did (o : op)
| Failed (o : op) (e : exn).

Definition op_of (ev : event) : op :=
  match ev with
  | Did o => o
  | Failed o _ => o
  end.

(** The calls made while a file is decoded. *)
Definition decoding_op (o : op) : bool :=
  match o with
  | PilOpen | PilVerify | FileSeek => true
  | _ => false
  end.

(** The calls of numpy and cv2. *)
Definition drawing_op (o : op) : bool :=
  match o with
  | NpArray | CvCall _ => true
  | _ => false
  end.

(** The calls that write to the table of history records. *)
Definition historial_write (o : op) : bool :=
  match o with
  | DbInsert table | DbUpdate table _ | DbDelete table _ => String.eqb table "Historial"
  | _ => false
  end.

(** The calls that store a file, write a row or run its signal, or encode
    the annotated image. *)
Definition saving_op (o : op) : bool :=
  match o with
  | StorageSave _ | DbInsert _ | DbUpdate _ _ | Signal _ _ | PilSave => true
  | _ => false
  end.

Inductive level := INFO | WARNING | ERROR | SUCCESS.

Record Db := {
  historial_tbl : gmap Z Historial;
  imagen_tbl : gmap Z Imagen;
  user_tbl : list User;
  next_pk : Z }.

Record world := World {
  db : Db;
  storage : gmap string blob;
  clock : Z;
  log : list (level * string);
  flash : list (level * string);
  trace : list event }.

Definition set_db (f : Db → Db) (w : world) : world :=
  World (f (db w)) (storage w) (clock w) (log w) (flash w) (trace w).
Definition set_storage (f : gmap string blob → gmap string blob) (w : world) : world :=
  World (db w) (f (storage w)) (clock w) (log w) (flash w) (trace w).
Definition add_log (l : level) (m : string) (w : world) : world :=
  World (db w) (storage w) (clock w) (log w ++ [(l, m)]) (flash w) (trace w).
Definition add_flash (l : level) (m : string) (w : world) : world :=
  World (db w) (storage w) (clock w) (log w) (flash w ++ [(l, m)]) (trace w).
Definition add_event (ev : event) (w : world) : world :=
  World (db w) (storage w) (clock w) (log w) (flash w) (trace w ++ [ev]).

Definition set_historial (f : gmap Z Historial → gmap Z Historial) (d : Db) : Db :=
  {| historial_tbl := f (historial_tbl d); imagen_tbl := imagen_tbl d;
     user_tbl := user_tbl d; next_pk := next_pk d |}.
Definition set_imagen (f : gmap Z Imagen → gmap Z Imagen) (d : Db) : Db :=
  {| historial_tbl := historial_tbl d; imagen_tbl := f (imagen_tbl d);
     user_tbl := user_tbl d; next_pk := next_pk d |}.
Definition bump_pk (d : Db) : Db :=
  {| historial_tbl := historial_tbl d; imagen_tbl := imagen_tbl d;
     user_tbl := user_tbl d; next_pk := next_pk d + 1 |}.

(** ** The surroundings

    What the services do not decide themselves: whether an external call
    fails (given the calls made so far), what the inference service and the
    HTTP server answer, the settings, and the behaviour fixed in other
    modules of the application: the form ([forms.py]), the field validators
    ([models.py]) and the naming policy of the file storage. *)

Record request := {
  method : string;
  req_user : option User;
  POST : list (string * string);
  FILES_imagen : option UploadedFile }.

Record Env := {
  fault : list event → op → option exn;
  ROBOFLOW_API_KEY : option string;
  infer_response : string → inference_result;
  http_response : string → Z * blob;
  pil_identify : blob → option (Z * Z);
  jpeg_encode : image → Z → blob;
  np_array_int32 : list (number * number) → outcome (list (Z * Z));
  check_password : string → string → bool;
  storage_available_name : gmap string blob → string → string;
  storage_url : string → string;
  imagen_form_errors : request → list string;
  imagen_form_paciente_nombre : request → string;
  historial_field_errors : Historial → list string }.

(** ** The monad of the services: state and exceptions *)

Definition M (S A : Type) : Type := S → outcome A * S.

Global Instance M_ret {S} : MRet (M S) := λ A a s, (Return a, s).
Global Instance M_bind {S} : MBind (M S) := λ A B f m s,
  match m s with
  | (Return a, s') => f a s'
  | (Raise e, s') => (Raise e, s')
  end.

Definition raise {S A} (e : exn) : M S A := λ s, (Raise e, s).

(** [try: body / except Exception as e: handler e]. *)
Definition try_except {S A} (body : M S A) (handler : exn → M S A) : M S A := λ s,
  match body s with
  | (Raise e, s') => handler e s'
  | r => r
  end.

Definition modify {S} (f : S → S) : M S unit := λ s, (Return (), f s).
Definition gets {S A} (f : S → A) : M S A := λ s, (Return (f s), s).

(** [for x in l: body x]. *)
Fixpoint for_each {S A} (l : list A) (body : A → M S unit) : M S unit :=
  match l with
  | [] => mret ()
  | x :: rest => body x;; for_each rest body
  end.

(** [transaction.atomic]: when the block raises, the database is put back
    as it was on entry; the file storage, the log and the record of calls
    are outside the transaction. *)
Definition atomic {A} (body : M world A) : M world A := λ w,
  match body w with
  | (Raise e, w') => (Raise e, set_db (λ _, db w) w')
  | r => r
  end.

Definition logger (l : level) (m : string) : M world unit := modify (add_log l m).
Definition messages (l : level) (m : string) : M world unit := modify (add_flash l m).

(** An external call: the surroundings decide whether it fails. *)
Definition perform (E : Env) (o : op) : M world unit := λ w,
  match fault E (trace w) o with
  | Some e => (Raise e, add_event (Failed o e) w)
  | None => (Return (), add_event (Did o) w)
  end.

(** The state of the renderer: the array it draws on, and the world. *)
Definition on_world {A} (m : M world A) : M (image * world) A := λ s,
  let '(r, w') := m (snd s) in (r, (fst s, w')).

Definition with_array {A} (img : image) (m : M (image * world) A) : M world image := λ w,
  match m (img, w) with
  | (Return _, (img', w')) => (Return img', w')
  | (Raise e, (_, w')) => (Raise e, w')
  end.

(** A cv2 call that writes its result into the array drawn on. *)
Definition cv_into (E : Env) (fn : string) (f : image → image) : M (image * world) unit :=
  on_world (perform E (CvCall fn));; modify (λ s, (f (fst s), snd s)).

(** ** Primitives of the libraries *)

(** [Image.open(stream)]. *)
Definition pil_open (E : Env) (data : blob) : M world PilImage :=
  perform E PilOpen;;
  match pil_identify E data with
  | Some sz => mret {| pil_size := sz; pil_data := data |}
  | None => raise (Exn UnidentifiedImageError "cannot identify image file")
  end.

(** [storage.save(name, content)]: the storage picks the name it stores
    under, and returns it. *)
Definition storage_save (E : Env) (name : string) (content : blob) : M world string :=
  perform E (StorageSave name);;
  actual ← gets (λ w, storage_available_name E (storage w) name);
  modify (set_storage (insert actual content));;
  mret actual.

Definition storage_delete (E : Env) (name : string) : M world unit :=
  perform E (StorageDelete name);;
  modify (set_storage (delete name)).

(** [min(column)] of an int32 array built from a list of points. *)
Definition py_min (l : list Z) : outcome Z :=
  match l with
  | [] => Raise (Exn IndexError "too many indices for array")
  | x :: rest => Return (fold_left Z.min rest x)
  end.

Definition int32_wrap (z : Z) : Z := (z + 2147483648) mod 4294967296 - 2147483648.

Definition lift_outcome {S A} (r : outcome A) : M S A := λ s, (r, s).

(** [d[key]] on a dictionary entry that may be missing. *)
Definition getitem {S A} (key : string) (o : option A) : M S A :=
  match o with
  | Some a => mret a
  | None => raise (Exn KeyError ("'" +:+ key +:+ "'"))
  end.

(** [x.attr] where [x] may be [None]. *)
Definition getattr {S A} (attr : string) (o : option A) : M S A :=
  match o with
  | Some a => mret a
  | None => raise (Exn AttributeError ("'NoneType' object has no attribute '" +:+ attr +:+ "'"))
  end.

Fixpoint map_M {S A B} (f : A → M S B) (l : list A) : M S (list B) :=
  match l with
  | [] => mret []
  | x :: rest => y ← f x; ys ← map_M f rest; mret (y :: ys)
  end.

(* ================================================================== *)
(** * services.py *)
(* ================================================================== *)

(** [get_inference_client]: the client is its key. *)
Definition get_inference_client (E : Env) : M world string :=
  match ROBOFLOW_API_KEY E with
  | None | Some "" => raise (Exn ValueError "ROBOFLOW_API_KEY no está configurada en settings")
  | Some api_key => mret api_key
  end.

Module ImageProcessingService.

Definition MODEL_ID : string := "proy_2/1".

Definition generate_encrypted_filename (original_name : string) : string :=
  let encrypted_name := Sha256.hexdigest original_name in
  let extension := last_item (py_split dot original_name) in
  encrypted_name +:+ "." +:+ extension.

Definition download_image (E : Env) (image_url : string) : M world (option PilImage) :=
  try_except
    (perform E (HttpGet image_url);;
     let '(status, content) := http_response E image_url in
     (if (400 <=? status) && (status <? 600)
      then raise (Exn HTTPError ("HTTP error for url: " +:+ image_url))
      else mret ());;
     if String.eqb content ""
     then
       logger WARNING ("Respuesta vacía al descargar imagen: " +:+ image_url);;
       mret None
     else
       img ← pil_open E content;
       perform E PilConvert;;
       mret (Some img))
    (λ e,
       if isinstance e RequestException
       then
         logger ERROR ("Error descargando imagen " +:+ image_url +:+ ": " +:+ exn_msg e);;
         mret None
       else
         logger ERROR ("Error procesando imagen descargada: " +:+ exn_msg e);;
         mret None).

Definition get_inference_result (E : Env) (image_url : string)
  : M world (option inference_result) :=
  try_except
    (client ← get_inference_client E;
     perform E (Infer image_url MODEL_ID);;
     let result := infer_response E image_url in
     mret (Some result))
    (λ e,
       logger ERROR ("Error en inferencia: " +:+ exn_msg e);;
       mret None).

(** The body of the loop of [draw_predictions_on_image], inside its [try]. *)
Definition draw_prediction (E : Env) (pred : prediction) : M (image * world) unit :=
  let confidence := num_times_100 (default (PyInt 0) (p_confidence pred)) in
  let class_name := default "Unknown" (p_class pred) in
  match p_points pred with
  | None => mret ()
  | Some pts =>
      coords ← map_M (λ p, x ← getitem "x" (pt_x p); y ← getitem "y" (pt_y p); mret (x, y)) pts;
      on_world (perform E NpArray);;
      points ← lift_outcome (np_array_int32 E coords);
      img_cv2 ← gets fst;
      on_world (perform E (CvCall "fillPoly"));;
      let overlay := FillPoly img_cv2 points (0, 0, 255) in
      let alpha := 0.4%float in
      cv_into E "addWeighted" (λ img, AddWeighted overlay alpha img (1 - alpha)%float 0%float);;
      let color := if String.eqb class_name "Sin Hernia" then (0, 255, 0) else (255, 0, 0) in
      cv_into E "polylines" (λ img, Polylines img points true color 2);;
      x_min ← lift_outcome (py_min (map fst points));
      y_min ← lift_outcome (py_min (map snd points));
      formatted ← lift_outcome (format_2f confidence);
      let text := class_name +:+ " " +:+ formatted +:+ "%" in
      cv_into E "putText"
        (λ img, PutText img text (x_min, int32_wrap (y_min - 10))
                        "FONT_HERSHEY_SIMPLEX" 0.5%float color 2)
  end.

(** One turn of the loop: the body under its [try], and the handler that
    logs and goes on to the next prediction. *)
Definition draw_prediction_guarded (E : Env) (pred : prediction) : M (image * world) unit :=
  try_except (draw_prediction E pred)
    (λ e, on_world (logger WARNING ("Error dibujando predicción: " +:+ exn_msg e))).

Definition draw_predictions_on_image (E : Env) (img_cv2 : image) (preds : list prediction)
  : M world image :=
  with_array img_cv2 (for_each preds (draw_prediction_guarded E)).

Definition save_processed_image (E : Env) (img_cv2 : image) : M world blob :=
  perform E (CvCall "cvtColor");;
  let img_pil := CvtColor "COLOR_BGR2RGB" img_cv2 in
  perform E PilSave;;
  mret (jpeg_encode E img_pil 95).

Definition extract_prediction_data (result : inference_result) : string * number :=
  let predictions := default [] (r_predictions result) in
  match predictions with
  | [] => ("Predicción no encontrada", PyFloat 0%float)
  | first_pred :: _ =>
      let class_prediction := default "Unknown" (p_class first_pred) in
      let confidence := num_times_100 (default (PyInt 0) (p_confidence first_pred)) in
      let grupo := if String.eqb class_prediction "Sin Hernia" then "Sin Hernia" else "Hernia" in
      let porcentaje := py_round2 confidence in
      (grupo, porcentaje)
  end.

End ImageProcessingService.

(** ** Django's model layer, as the services use it

    A write is followed by the dispatch of its [post_save] or
    [post_delete] signal, which may still raise after the row has been
    written. *)

(** [Historial.objects.get(id=pk)] and [get(id=pk, user=user)]. *)
Definition historial_get (E : Env) (pk : Z) (owner : option User) : M world Historial :=
  perform E (DbSelect "Historial");;
  row ← gets (λ w, historial_tbl (db w) !! pk);
  match row, owner with
  | Some h, None => mret h
  | Some h, Some u =>
      if h_user h =? u_id u then mret h
      else raise (Exn (DoesNotExist "Historial") "Historial matching query does not exist.")
  | None, _ => raise (Exn (DoesNotExist "Historial") "Historial matching query does not exist.")
  end.

Definition with_imagen (name : string) (h : Historial) : Historial :=
  {| h_user := h_user h; h_imagen := name; h_porcentaje := h_porcentaje h;
     h_grupo := h_grupo h; h_paciente_nombre := h_paciente_nombre h;
     h_fecha_imagen := h_fecha_imagen h |}.

(** [historial.imagen.delete()]: the file leaves the storage, the field is
    cleared, and the row is saved (the default [save=True] of Django's
    [FieldFile.delete]). *)
Definition fieldfile_delete (E : Env) (pk : Z) (h : Historial) : M world Historial :=
  storage_delete E (h_imagen h);;
  let h' := with_imagen "" h in
  perform E (DbUpdate "Historial" pk);;
  modify (set_db (set_historial (insert pk h')));;
  perform E (Signal "post_save" "Historial");;
  mret h'.

(** [historial.delete()]. *)
Definition historial_delete (E : Env) (pk : Z) : M world unit :=
  perform E (DbDelete "Historial" pk);;
  modify (set_db (set_historial (delete pk)));;
  perform E (Signal "post_delete" "Historial").

(** [historial.full_clean()]: the validators of [models.py]. *)
Definition full_clean (E : Env) (h : Historial) : M world unit :=
  match historial_field_errors E h with
  | [] => mret ()
  | errors => raise (Exn ValidationError (String.concat "; " errors))
  end.

(** [historial.save()] of a new row: the database gives it its key. *)
Definition historial_save (E : Env) (h : Historial) : M world Z :=
  perform E (DbInsert "Historial");;
  pk ← gets (λ w, next_pk (db w));
  modify (set_db (λ d, bump_pk (set_historial (insert pk h) d)));;
  perform E (Signal "post_save" "Historial");;
  mret pk.

Module HistorialService.

Definition create_historial_from_image (E : Env) (user : User) (imagen_obj : Imagen)
    (paciente_nombre grupo : string) (porcentaje : number) : M world (Z * Historial) :=
  atomic
    (try_except
       (let fecha_local := astimezone (i_fecha imagen_obj) ECUADOR_TZ in
        let historial :=
          {| h_user := u_id user;
             h_imagen := i_imagen imagen_obj;
             h_porcentaje := porcentaje;
             h_grupo := grupo;
             h_paciente_nombre := paciente_nombre;
             h_fecha_imagen := fecha_local |} in
        full_clean E historial;;
        pk ← historial_save E historial;
        logger INFO ("Historial creado: ID=" +:+ pretty pk +:+ ", Paciente=" +:+ paciente_nombre
                     +:+ ", Grupo=" +:+ grupo);;
        mret (pk, historial))
       (λ e,
          logger ERROR ("Error creando historial: " +:+ exn_msg e);;
          raise e)).

Definition delete_historial (E : Env) (historial_id : Z) (user : option User) : M world bool :=
  atomic
    (try_except
       (historial ← historial_get E historial_id user;
        (if negb (String.eqb (h_imagen historial) "")
         then fieldfile_delete E historial_id historial
         else mret historial);;
        historial_delete E historial_id;;
        logger INFO ("Historial eliminado: ID=" +:+ pretty historial_id);;
        mret true)
       (λ e,
          if isinstance e (DoesNotExist "Historial")
          then
            logger WARNING ("Historial no encontrado: ID=" +:+ pretty historial_id);;
            mret false
          else
            logger ERROR ("Error eliminando historial: " +:+ exn_msg e);;
            raise e)).

End HistorialService.

(** The row that [create_historial_from_image] builds from its arguments. *)
Definition new_historial (user : User) (imagen_obj : Imagen)
    (paciente_nombre grupo : string) (porcentaje : number) : Historial :=
  {| h_user := u_id user;
     h_imagen := i_imagen imagen_obj;
     h_porcentaje := porcentaje;
     h_grupo := grupo;
     h_paciente_nombre := paciente_nombre;
     h_fecha_imagen := astimezone (i_fecha imagen_obj) ECUADOR_TZ |}.


Module ImageValidator.

Definition ALLOWED_EXTENSIONS : list string := ["jpg"; "jpeg"; "png"; "gif"; "bmp"].
Definition MAX_FILE_SIZE : Z := 10 * 1024 * 1024.
Definition MIN_DIMENSION : Z := 100.
Definition MAX_DIMENSION : Z := 10000.

Definition validate_file_extension (filename : string) : bool :=
  let extension := py_lower (last_item (py_rsplit1 dot filename)) in
  str_in extension ALLOWED_EXTENSIONS.

Definition validate_file_size (file_size : Z) : bool :=
  (0 <? file_size) && (file_size <=? MAX_FILE_SIZE).

Definition validate_image_dimensions (image : PilImage) : bool :=
  let '(width, height) := pil_size image in
  ((MIN_DIMENSION <=? width) && (width <=? MAX_DIMENSION))
  && ((MIN_DIMENSION <=? height) && (height <=? MAX_DIMENSION)).

(** The two messages built by f-strings: [MAX_FILE_SIZE / 1024 / 1024] is
    the float [10.0], and the dimensions are printed as integers. *)
Definition size_message : string := "Archivo demasiado grande (máximo 10.0MB)".
Definition dimension_message : string :=
  "Dimensiones inválidas (" +:+ pretty MIN_DIMENSION +:+ "-" +:+ pretty MAX_DIMENSION +:+ "px)".

Definition validate_image (E : Env) (file_obj : option UploadedFile)
  : M world (bool * option string) :=
  try_except
    (name ← getattr "name" (f_name <$> file_obj);
     if negb (validate_file_extension name)
     then mret (false, Some "Formato de archivo no permitido")
     else
       size ← getattr "size" (f_size <$> file_obj);
       if negb (validate_file_size size)
       then mret (false, Some size_message)
       else
         opened ← try_except
                    (content ← getattr "read" (f_content <$> file_obj);
                     image ← pil_open E content;
                     perform E PilVerify;;
                     perform E FileSeek;;
                     image ← pil_open E content;
                     mret (Some image))
                    (λ _, mret None);
         match opened with
         | None => mret (false, Some "Archivo no es una imagen válida")
         | Some image =>
             if negb (validate_image_dimensions image)
             then mret (false, Some dimension_message)
             else mret (true, None)
         end)
    (λ e,
       logger ERROR ("Error validando imagen: " +:+ exn_msg e);;
       mret (false, Some "Error al validar la imagen")).

End ImageValidator.

(* ================================================================== *)
(** * auth_service.py *)
(* ================================================================== *)

(** The text of Django's [MultipleObjectsReturned]: [get] fetches at most
    21 rows and reports how many it got, or "more than 20". *)
Definition multiple_objects_message (model : string) (num : nat) : string :=
  "get() returned more than one " +:+ model +:+ " -- it returned "
  +:+ (if (num <? 21)%nat then pretty (Z.of_nat num) else "more than 20") +:+ "!".

Global Arguments multiple_objects_message : simpl never.

(** [User.objects.get(email=email)]. *)
Definition user_get_by_email (E : Env) (email : string) : M world User :=
  perform E (DbSelect "User");;
  found ← gets (λ w, filter (λ u, u_email u = email) (user_tbl (db w)));
  match found with
  | [] => raise (Exn (DoesNotExist "User") "User matching query does not exist.")
  | [u] => mret u
  | _ => raise (Exn (MultipleObjectsReturned "User")
                    (multiple_objects_message "User" (length found)))
  end.

(** [django.contrib.auth.authenticate(username=, password=)] with the model
    backend: the user of that name, when the password checks and the
    account is active. *)
Definition authenticate (E : Env) (username password : string) : M world (option User) :=
  perform E (DbSelect "User");;
  found ← gets (λ w, filter (λ u, u_username u = username) (user_tbl (db w)));
  match found with
  | u :: _ =>
      if check_password E password (u_password u) && u_is_active u
      then mret (Some u) else mret None
  | [] => mret None
  end.

(** The registration form handed to [register_user] ([forms.py]): whether
    it was given data, what its validation does and finds (the messages of
    each field), and what its [save] does.  [form.is_valid()] runs the
    validation of a bound form and is true when it finds nothing; the
    [errors] of a form that was given no data are empty. *)
Record RegistroForm := {
  form_is_bound : bool;
  form_full_clean : M world (list (string * list string));
  form_save : M world User }.

Definition errors_of (form : RegistroForm) : M world (list (string * list string)) :=
  if form_is_bound form then form_full_clean form else mret [].

Module AuthenticationService.

Definition authenticate_by_email (E : Env) (email password : string)
  : M world (option User * option string) :=
  try_except
    (user ← user_get_by_email E email;
     authenticated_user ← authenticate E (u_username user) password;
     match authenticated_user with
     | Some au =>
         logger INFO ("Usuario autenticado: " +:+ u_username user);;
         mret (Some au, None)
     | None =>
         logger WARNING ("Intento de autenticación fallido para: " +:+ email);;
         mret (None, Some "Correo electrónico o contraseña incorrectos.")
     end)
    (λ e,
       if isinstance e (DoesNotExist "User")
       then
         logger WARNING ("Usuario no encontrado: " +:+ email);;
         mret (None, Some "Correo electrónico o contraseña incorrectos.")
       else
         logger ERROR ("Error en autenticación: " +:+ exn_msg e);;
         mret (None, Some "Error al procesar la autenticación.")).

Definition register_user (form : RegistroForm) : M world (option User * option string) :=
  try_except
    (form_errors ← errors_of form;
     if negb (form_is_bound form && bool_decide (form_errors = []))
     then
       let errors := flat_map snd form_errors in
       mret (None, Some (String.concat " " errors))
     else
       user ← form_save form;
       logger INFO ("Usuario registrado: " +:+ u_username user);;
       mret (Some user, None))
    (λ e,
       logger ERROR ("Error al registrar usuario: " +:+ exn_msg e);;
       mret (None, Some ("Error al registrar el usuario: " +:+ exn_msg e))).

Definition send_password_reset_email (E : Env) (email : string) : M world (bool * string) :=
  try_except
    (user ← user_get_by_email E email;
     logger INFO ("Email de recuperación solicitado para: " +:+ email);;
     mret (true, "Se ha enviado un enlace para restablecer la contraseña a tu correo electrónico."))
    (λ e,
       if isinstance e (DoesNotExist "User")
       then
         logger WARNING ("Intento de recuperación para email no registrado: " +:+ email);;
         mret (false, "El correo electrónico no está registrado en nuestro sistema.")
       else
         logger ERROR ("Error enviando email de recuperación: " +:+ exn_msg e);;
         mret (false, "Error al procesar la solicitud.")).

End AuthenticationService.

(* ================================================================== *)
(** * views.py: the upload view and the deletion views *)
(* ================================================================== *)

Inductive context :=
| FormContext (errors : list string)
| ResultContext (grupo : string) (porcentaje : number)
    (original_image_url processed_image_url : string)
    (fecha_imagen : datetime) (paciente_nombre : string).

Inductive response :=
| Render (template : string) (ctx : context)
| Redirect (to : string)
| HttpResponseNotAllowed (permitted : list string).

(** [@login_required] and [@require_http_methods]. *)
Definition login_required (request : request) (view : User → M world response)
  : M world response :=
  match req_user request with
  | Some user => view user
  | None => mret (Redirect "login")
  end.

Definition require_http_methods (permitted : list string) (request : request)
    (view : M world response) : M world response :=
  if str_in (method request) permitted then view
  else mret (HttpResponseNotAllowed permitted).

(** [imagen_obj.save()] of the new [Imagen]: its file goes to the storage,
    then the row is inserted; the row carries the time of the insertion. *)
Definition imagen_save (E : Env) (name : string) (content : blob) (paciente_nombre : string)
  : M world (Z * Imagen) :=
  stored ← storage_save E name content;
  perform E (DbInsert "Imagen");;
  pk ← gets (λ w, next_pk (db w));
  fecha ← gets (λ w, DateTime (clock w) 0);
  let row := {| i_imagen := stored; i_paciente_nombre := paciente_nombre; i_fecha := fecha |} in
  modify (set_db (λ d, bump_pk (set_imagen (insert pk row) d)));;
  perform E (Signal "post_save" "Imagen");;
  mret (pk, row).

(** [imagen_obj.imagen.save(name, content)]: the new file goes to the
    storage and the row is saved with its name. *)
Definition imagen_fieldfile_save (E : Env) (pk : Z) (row : Imagen) (name : string)
    (content : blob) : M world Imagen :=
  stored ← storage_save E name content;
  let row' := {| i_imagen := stored; i_paciente_nombre := i_paciente_nombre row;
                 i_fecha := i_fecha row |} in
  perform E (DbUpdate "Imagen" pk);;
  modify (set_db (set_imagen (insert pk row')));;
  perform E (Signal "post_save" "Imagen");;
  mret row'.

Module Views.

Import ImageProcessingService.

Definition upload_page (E : Env) (request : request) : response :=
  Render "imagen/subir_imagen.html" (FormContext (imagen_form_errors E request)).

Definition subir_imagen (E : Env) (request : request) : M world response :=
  login_required request (λ user,
  require_http_methods ["GET"; "POST"] request
  (if String.eqb (method request) "POST"
   then
     match imagen_form_errors E request with
     | _ :: _ as errors =>
         for_each errors (λ error, messages ERROR error);;
         mret (upload_page E request)
     | [] =>
         let imagen_file := FILES_imagen request in
         '(is_valid, error_msg) ← ImageValidator.validate_image E imagen_file;
         if negb is_valid
         then
           messages ERROR (default "None" error_msg);;
           mret (upload_page E request)
         else
           try_except
             (atomic
                (let paciente_nombre := imagen_form_paciente_nombre E request in
                 name ← getattr "name" (f_name <$> imagen_file);
                 let encrypted_name := generate_encrypted_filename name in
                 content ← getattr "read" (f_content <$> imagen_file);
                 '(pk, imagen_obj) ← imagen_save E encrypted_name content paciente_nombre;
                 let image_url := storage_url E (i_imagen imagen_obj) in
                 image_pil ← download_image E image_url;
                 match image_pil with
                 | None =>
                     messages ERROR "Error al procesar la imagen.";;
                     mret (upload_page E request)
                 | Some image_pil =>
                     perform E NpArray;;
                     perform E (CvCall "cvtColor");;
                     let img_cv2 := CvtColor "COLOR_RGB2BGR" (Pixels image_pil) in
                     result ← get_inference_result E image_url;
                     match result with
                     | None =>
                         messages ERROR "Error al procesar la imagen con el modelo.";;
                         mret (upload_page E request)
                     | Some result =>
                         let predictions := default [] (r_predictions result) in
                         img_cv2 ← draw_predictions_on_image E img_cv2 predictions;
                         buffer ← save_processed_image E img_cv2;
                         imagen_obj ← imagen_fieldfile_save E pk imagen_obj encrypted_name buffer;
                         let '(grupo, porcentaje) := extract_prediction_data result in
                         historial ← HistorialService.create_historial_from_image
                                       E user imagen_obj paciente_nombre grupo porcentaje;
                         let fecha_local := astimezone (i_fecha imagen_obj) ECUADOR_TZ in
                         messages SUCCESS "Imagen procesada exitosamente.";;
                         mret (Render "imagen/resultados.html"
                                 (ResultContext grupo porcentaje image_url
                                    (storage_url E (i_imagen imagen_obj))
                                    fecha_local paciente_nombre))
                     end
                 end))
             (λ e,
                logger ERROR ("Error procesando imagen: " +:+ exn_msg e);;
                messages ERROR "Error al procesar la imagen. Intenta nuevamente.";;
                mret (upload_page E request))
     end
   else mret (Render "imagen/subir_imagen.html" (FormContext [])))).

Definition eliminar_historial (E : Env) (request : request) (id : Z) : M world response :=
  login_required request (λ user,
  require_http_methods ["POST"] request
    (try_except
       (success ← HistorialService.delete_historial E id (Some user);
        if success : bool
        then messages SUCCESS "El registro ha sido eliminado correctamente."
        else messages ERROR "No se encontró el registro.")
       (λ e,
          logger ERROR ("Error eliminando historial: " +:+ exn_msg e);;
          messages ERROR "Error al eliminar el registro.");;
     mret (Redirect "historial_med"))).

Definition eliminar_historial_general (E : Env) (request : request) (id : Z)
  : M world response :=
  login_required request (λ user,
  require_http_methods ["POST"] request
    (if negb (u_is_superuser user)
     then
       messages ERROR "No tienes permiso para realizar esta acción.";;
       mret (Redirect "historial_med_gene")
     else
       try_except
         (success ← HistorialService.delete_historial E id None;
          if success : bool
          then messages SUCCESS "El registro ha sido eliminado correctamente."
          else messages ERROR "No se encontró el registro.")
         (λ e,
            logger ERROR ("Error eliminando historial general: " +:+ exn_msg e);;
            messages ERROR "Error al eliminar el registro.");;
       mret (Redirect "historial_med_gene"))).

End Views.

(* ================================================================== *)
(** * utils.py: pure helpers *)
(* ================================================================== *)

(** Regular expressions, as far as the pattern of [is_valid_email] needs
    them: character classes given by ranges, sequence, choice and
    repetition.  [re.match(pattern, s)] with a pattern that ends in [$]
    succeeds when the pattern matches all of [s], or all of [s] but a
    final newline; matching is decided by derivatives. *)
Inductive regex :=
| ReNone
| ReEmpty
| ReSet (ranges : list (ascii * ascii))
| ReSeq (r1 r2 : regex)
| ReAlt (r1 r2 : regex)
| ReStar (r : regex).

Definition in_set (c : ascii) (ranges : list (ascii * ascii)) : bool :=
  existsb (λ range, (N_of_ascii range.1 <=? N_of_ascii c)%N
                    && (N_of_ascii c <=? N_of_ascii range.2)%N) ranges.

Definition ReChar (c : ascii) : regex := ReSet [(c, c)].
Definition RePlus (r : regex) : regex := ReSeq r (ReStar r).
Definition ReAtLeast2 (r : regex) : regex := ReSeq r (ReSeq r (ReStar r)).
Definition ReEnd : regex := ReAlt ReEmpty (ReChar "010").

Fixpoint nullable (r : regex) : bool :=
  match r with
  | ReNone | ReSet _ => false
  | ReEmpty | ReStar _ => true
  | ReSeq r1 r2 => nullable r1 && nullable r2
  | ReAlt r1 r2 => nullable r1 || nullable r2
  end.

Fixpoint deriv (c : ascii) (r : regex) : regex :=
  match r with
  | ReNone | ReEmpty => ReNone
  | ReSet ranges => if in_set c ranges then ReEmpty else ReNone
  | ReSeq r1 r2 =>
      if nullable r1 then ReAlt (ReSeq (deriv c r1) r2) (deriv c r2)
      else ReSeq (deriv c r1) r2
  | ReAlt r1 r2 => ReAlt (deriv c r1) (deriv c r2)
  | ReStar r1 => ReSeq (deriv c r1) (ReStar r1)
  end.

Fixpoint fullmatch (r : regex) (s : string) : bool :=
  match s with
  | EmptyString => nullable r
  | String c rest => fullmatch (deriv c r) rest
  end.

(** The texts a regular expression matches. *)
Inductive matches : regex → string → Prop :=
| matches_empty : matches ReEmpty ""
| matches_set ranges c : in_set c ranges = true → matches (ReSet ranges) (String c "")
| matches_seq r1 r2 s1 s2 :
    matches r1 s1 → matches r2 s2 → matches (ReSeq r1 r2) (s1 +:+ s2)
| matches_alt_l r1 r2 s : matches r1 s → matches (ReAlt r1 r2) s
| matches_alt_r r1 r2 s : matches r2 s → matches (ReAlt r1 r2) s
| matches_star_nil r : matches (ReStar r) ""
| matches_star_cons r s1 s2 :
    matches r s1 → matches (ReStar r) s2 → matches (ReStar r) (s1 +:+ s2).

Fixpoint all_in (ranges : list (ascii * ascii)) (s : string) : bool :=
  match s with
  | EmptyString => true
  | String c rest => in_set c ranges && all_in ranges rest
  end.

(** [list(range(start, stop))]. *)
Definition py_range (start stop : Z) : list Z :=
  map (λ i, start + Z.of_nat i) (seq 0 (Z.to_nat (stop - start))).

(** What [get_page_range] reads of Django's paginator and page. *)
Record Paginator := { num_pages : Z }.
Record Page := { page_number : Z }.

Module Utils.

Definition get_page_range (paginator : Paginator) (page_obj : Page) (range_size : Z)
  : list Z :=
  let current_page := page_number page_obj in
  let total_pages := num_pages paginator in
  let start := Z.max 1 (current_page - range_size / 2) in
  let end_ := Z.min (total_pages + 1) (start + range_size) in
  let start := if end_ - start <? range_size then Z.max 1 (end_ - range_size) else start in
  py_range start end_.

Definition get_file_extension (lower_unicode : string → string) (filename : string)
  : string :=
  if has_char dot filename
  then str_lower lower_unicode (last_item (py_rsplit1 dot filename))
  else "".

(** The classes [[a-zA-Z0-9._%+-]], [[a-zA-Z0-9.-]] and [[a-zA-Z]]. *)
Definition local_chars : list (ascii * ascii) :=
  [("a", "z"); ("A", "Z"); ("0", "9"); (".", "."); ("_", "_"); ("%", "%"); ("+", "+");
   ("-", "-")]%char.
Definition domain_chars : list (ascii * ascii) :=
  [("a", "z"); ("A", "Z"); ("0", "9"); (".", "."); ("-", "-")]%char.
Definition letters : list (ascii * ascii) := [("a", "z"); ("A", "Z")]%char.

(** [^[a-zA-Z0-9._%+-]+@[a-zA-Z0-9.-]+\.[a-zA-Z]{2,}$]. *)
Definition email_pattern : regex :=
  ReSeq (RePlus (ReSet local_chars))
    (ReSeq (ReChar "@")
       (ReSeq (RePlus (ReSet domain_chars))
          (ReSeq (ReChar ".")
             (ReSeq (ReAtLeast2 (ReSet letters)) ReEnd)))).

Definition is_valid_email (email : string) : bool := fullmatch email_pattern email.

End Utils.

(* ================================================================== *)
(** * Sample data for the worked examples *)
(* ================================================================== *)

(** The example of the specification for the extractor: the second
    prediction has the higher confidence. *)
Definition spec_example : inference_result :=
  {| r_predictions :=
       Some [ {| p_class := Some "Hernia";
                 p_confidence := Some (PyFloat (8 / 10)%float);
                 p_points := None |};
              {| p_class := Some "Sin Hernia";
                 p_confidence := Some (PyFloat (99 / 100)%float);
                 p_points := None |} ] |}.

(** A deployment in which nothing fails, with one registered user. *)
Definition sample_user : User :=
  {| u_id := 1; u_username := "ana"; u_email := "ana@example.org";
     u_password := "secret"; u_is_active := true; u_is_superuser := false |}.

Definition empty_db : Db :=
  {| historial_tbl := ∅; imagen_tbl := ∅; user_tbl := []; next_pk := 1 |}.

Definition empty_world : world :=
  {| db := empty_db; storage := ∅; clock := 0; log := []; flash := []; trace := [] |}.

Definition one_user_world : world :=
  set_db (λ d, {| historial_tbl := historial_tbl d; imagen_tbl := imagen_tbl d;
                  user_tbl := [sample_user]; next_pk := next_pk d |}) empty_world.

(** Truncation of a coordinate, for the sample numpy conversion. *)
Definition int_of_number (x : number) : Z :=
  match x with
  | PyInt z => z
  | PyFloat f =>
      match Prim2SF f with
      | S754_finite s m e =>
          let a := if 0 <=? e then Z.pos m * 2 ^ e else Z.pos m / 2 ^ (- e) in
          if s then - a else a
      | _ => 0
      end
  end.

Definition sample_result : inference_result :=
  {| r_predictions :=
       Some [ {| p_class := Some "Hernia";
                 p_confidence := Some (PyFloat (87 / 100)%float);
                 p_points := Some [ {| pt_x := Some (PyFloat 10%float); pt_y := Some (PyFloat 40%float) |};
                                    {| pt_x := Some (PyFloat 90%float); pt_y := Some (PyFloat 35.5%float) |};
                                    {| pt_x := Some (PyInt 50); pt_y := Some (PyInt 120) |} ] |} ] |}.

Definition quiet_env : Env :=
  {| fault := λ _ _, None;
     ROBOFLOW_API_KEY := Some "key";
     infer_response := λ _, sample_result;
     http_response := λ _, (200, "image bytes");
     pil_identify := λ _, Some (500, 500);
     jpeg_encode := λ _ _, "jpeg bytes";
     np_array_int32 := λ l, Return (map (λ p, (int_of_number p.1, int_of_number p.2)) l);
     check_password := String.eqb;
     storage_available_name := λ _ name, name;
     storage_url := λ name, "/media/" +:+ name;
     imagen_form_errors := λ _, [];
     imagen_form_paciente_nombre := λ _, "Juan Pérez";
     historial_field_errors := λ _, [] |}.

(** A prediction whose only point has no [y]. *)
Definition broken_prediction : prediction :=
  {| p_class := Some "Hernia"; p_confidence := Some (PyFloat (1 / 2)%float);
     p_points := Some [ {| pt_x := Some (PyInt 3); pt_y := None |} ] |}.

(** A decoded 500x500 image. *)
Definition sample_image : image := Pixels {| pil_size := (500, 500); pil_data := "image bytes" |}.

(** The same deployment with the inference service unreachable, and an
    upload of a 2 MB file named [xray.jpg]. *)
Definition offline_env : Env :=
  {| fault := λ _ o, match o with
                     | Infer _ _ => Some (Exn RequestException "Connection refused")
                     | _ => None
                     end;
     ROBOFLOW_API_KEY := ROBOFLOW_API_KEY quiet_env;
     infer_response := infer_response quiet_env;
     http_response := http_response quiet_env;
     pil_identify := pil_identify quiet_env;
     jpeg_encode := jpeg_encode quiet_env;
     np_array_int32 := np_array_int32 quiet_env;
     check_password := check_password quiet_env;
     storage_available_name := storage_available_name quiet_env;
     storage_url := storage_url quiet_env;
     imagen_form_errors := imagen_form_errors quiet_env;
     imagen_form_paciente_nombre := imagen_form_paciente_nombre quiet_env;
     historial_field_errors := historial_field_errors quiet_env |}.

Definition sample_request : request :=
  {| method := "POST";
     req_user := Some sample_user;
     POST := [("paciente_nombre", "Juan Pérez")];
     FILES_imagen := Some {| f_name := "xray.jpg"; f_size := 2097152;
                             f_content := "image bytes" |} |}.

(** The name [xray.jpg] is stored under. *)
Definition stored_xray : string :=
  "58430b0fbd1a02b254277045eaa374e3a44f4bdd0c79b32f09d44b8cec65b63e.jpg".

(** A second user, who owns the one history record of [history_world];
    the record's file is in the storage. *)
Definition other_user : User :=
  {| u_id := 2; u_username := "luis"; u_email := "luis@example.org";
     u_password := "hunter2"; u_is_active := true; u_is_superuser := false |}.

Definition sample_historial : Historial :=
  {| h_user := 2; h_imagen := stored_xray; h_porcentaje := PyFloat 87%float;
     h_grupo := "Hernia"; h_paciente_nombre := "Juan Pérez";
     h_fecha_imagen := DateTime 0 (-300) |}.

Definition history_world : world :=
  {| db := {| historial_tbl := {[ 7 := sample_historial ]}; imagen_tbl := ∅;
              user_tbl := [sample_user; other_user]; next_pk := 8 |};
     storage := {[ stored_xray := "jpeg bytes" ]};
     clock := 0; log := []; flash := []; trace := [] |}.

(** A deployment that differs from [quiet_env] in one respect. *)
Definition env_with (fault' : list event → op → option exn)
    (errors : Historial → list string) : Env :=
  {| fault := fault';
     ROBOFLOW_API_KEY := ROBOFLOW_API_KEY quiet_env;
     infer_response := infer_response quiet_env;
     http_response := http_response quiet_env;
     pil_identify := pil_identify quiet_env;
     jpeg_encode := jpeg_encode quiet_env;
     np_array_int32 := np_array_int32 quiet_env;
     check_password := check_password quiet_env;
     storage_available_name := storage_available_name quiet_env;
     storage_url := storage_url quiet_env;
     imagen_form_errors := imagen_form_errors quiet_env;
     imagen_form_paciente_nombre := imagen_form_paciente_nombre quiet_env;
     historial_field_errors := errors |}.

(** The row of the table cannot be deleted. *)
Definition stuck_row_env : Env :=
  env_with (λ _ o, match o with
                   | DbDelete _ _ => Some (Exn DatabaseError "database is locked")
                   | _ => None
                   end)
           (λ _, []).

(** The validators accept the two diagnoses only. *)
Definition strict_env : Env :=
  env_with (λ _ _, None)
           (λ h, if str_in (h_grupo h) ["Sin Hernia"; "Hernia"] then []
                 else ["grupo: el valor no es una opción válida."]).

(** The signal that follows the insertion fails. *)
Definition late_failure_env : Env :=
  env_with (λ _ o, match o with
                   | Signal _ _ => Some (Exn ValueError "receiver failed")
                   | _ => None
                   end)
           (λ _, []).

(** Drawing the outline fails. *)
Definition no_outline_env : Env :=
  env_with (λ _ o, match o with
                   | CvCall "polylines" => Some (Exn CvError "polylines failed")
                   | _ => None
                   end)
           (λ _, []).

Definition sample_imagen : Imagen :=
  {| i_imagen := stored_xray; i_paciente_nombre := "Juan Pérez"; i_fecha := DateTime 0 0 |}.

(** The world after the upload of [sample_request] went through. *)
Definition after_upload : world :=
  (Views.subir_imagen quiet_env sample_request one_user_world).2.

(** A deployment in which every file decodes to an image of the given
    size. *)
Definition env_with_size (size : Z * Z) : Env :=
  {| fault := fault quiet_env;
     ROBOFLOW_API_KEY := ROBOFLOW_API_KEY quiet_env;
     infer_response := infer_response quiet_env;
     http_response := http_response quiet_env;
     pil_identify := λ _, Some size;
     jpeg_encode := jpeg_encode quiet_env;
     np_array_int32 := np_array_int32 quiet_env;
     check_password := check_password quiet_env;
     storage_available_name := storage_available_name quiet_env;
     storage_url := storage_url quiet_env;
     imagen_form_errors := imagen_form_errors quiet_env;
     imagen_form_paciente_nombre := imagen_form_paciente_nombre quiet_env;
     historial_field_errors := historial_field_errors quiet_env |}.

(** A second account registered with the email of the first. *)
Definition namesake_user : User :=
  {| u_id := 4; u_username := "ana2"; u_email := "ana@example.org";
     u_password := "secret"; u_is_active := true; u_is_superuser := false |}.

Definition shared_email_world : world :=
  set_db (λ d, {| historial_tbl := historial_tbl d; imagen_tbl := imagen_tbl d;
                  user_tbl := [sample_user; namesake_user]; next_pk := next_pk d |})
         empty_world.

(** An administrator, and a request of theirs to delete a record. *)
Definition admin_user : User :=
  {| u_id := 3; u_username := "root"; u_email := "root@example.org";
     u_password := "s3cret"; u_is_active := true; u_is_superuser := true |}.

Definition delete_request (user : User) : request :=
  {| method := "POST"; req_user := Some user; POST := []; FILES_imagen := None |}.

(* ================================================================== *)
(** * Properties *)
(* ================================================================== *)

(** ** Strings *)

Section StringFacts.

Lemma py_split_nonempty sep s : py_split sep s ≠ [].
Proof.
  destruct s as [|ch s]; simpl; [discriminate|].
  destruct (Ascii.eqb ch sep); [discriminate|].
  destruct (py_split sep s); discriminate.
Qed.

Lemma py_split_dotless sep s : has_char sep s = false → py_split sep s = [s].
Proof.
  induction s as [|ch s IH]; simpl; [reflexivity|].
  intros H. apply orb_false_iff in H as [Hc Hs].
  rewrite Hc, (IH Hs). reflexivity.
Qed.

(** Splitting [base + sep + rest] splits the two sides. *)
Lemma py_split_app sep base rest :
  py_split sep (base +:+ String sep rest) = (py_split sep base ++ py_split sep rest)%list.
Proof.
  induction base as [|ch base IH].
  - simpl. rewrite Ascii.eqb_refl. reflexivity.
  - change (String ch base +:+ String sep rest) with (String ch (base +:+ String sep rest)).
    cbn [py_split]. rewrite IH.
    destruct (Ascii.eqb ch sep); [reflexivity|].
    pose proof (py_split_nonempty sep base) as Hne.
    destruct (py_split sep base) as [|seg segs]; [congruence | reflexivity].
Qed.

(** The last segment of [base.ext] is [ext], when [ext] has no dot. *)
Lemma last_split_app sep base ext :
  has_char sep ext = false →
  last_item (py_split sep (base +:+ String sep ext)) = ext.
Proof.
  intros Hext. unfold last_item.
  rewrite py_split_app, (py_split_dotless _ _ Hext).
  apply List.last_last.
Qed.

Lemma rpartition_dotless sep s : has_char sep s = false → rpartition sep s = None.
Proof.
  induction s as [|ch s IH]; simpl; [reflexivity|].
  intros H. apply orb_false_iff in H as [Hc Hs].
  rewrite (IH Hs), Hc. reflexivity.
Qed.

Lemma rpartition_app sep base ext :
  has_char sep ext = false →
  rpartition sep (base +:+ String sep ext) = Some (base, ext).
Proof.
  intros Hext. induction base as [|ch base IH]; simpl.
  - rewrite (rpartition_dotless _ _ Hext), Ascii.eqb_refl. reflexivity.
  - rewrite IH. reflexivity.
Qed.

Lemma str_in_spec x l : str_in x l = true ↔ In x l.
Proof.
  unfold str_in. rewrite existsb_exists. split.
  - intros (y & Hy & Heq). apply String.eqb_eq in Heq. subst. exact Hy.
  - intros Hin. exists x. split; [exact Hin | apply String.eqb_refl].
Qed.

Lemma rpartition_none sep s : rpartition sep s = None → has_char sep s = false.
Proof.
  induction s as [|ch s IH]; simpl; [reflexivity|].
  destruct (rpartition sep s) as [[a b]|]; [discriminate|].
  destruct (Ascii.eqb ch sep); [discriminate|]. intros _. apply IH. reflexivity.
Qed.

(** A cut is at a separator, and nothing after it is one. *)
Lemma rpartition_some sep s a b :
  rpartition sep s = Some (a, b) → s = a +:+ String sep b ∧ has_char sep b = false.
Proof.
  revert a. induction s as [|ch s IH]; intros a; simpl; [discriminate|].
  destruct (rpartition sep s) as [[a' b']|] eqn:Hrest.
  - intros [= <- <-]. destruct (IH a' eq_refl) as [-> Hb]. split; [reflexivity | exact Hb].
  - destruct (Ascii.eqb_spec ch sep) as [->|]; [|discriminate].
    intros [= <- <-]. split; [reflexivity|]. apply rpartition_none. exact Hrest.
Qed.

(** [split(sep)] and [rsplit(sep, 1)] end on the same segment. *)
Lemma last_split_rsplit sep s :
  last_item (py_split sep s) = last_item (py_rsplit1 sep s).
Proof.
  unfold py_rsplit1. destruct (rpartition sep s) as [[a b]|] eqn:Hcut.
  - apply rpartition_some in Hcut as [-> Hb]. apply last_split_app. exact Hb.
  - apply rpartition_none in Hcut. rewrite (py_split_dotless _ _ Hcut). reflexivity.
Qed.

Lemma last_rsplit_no_sep sep s : has_char sep (last_item (py_rsplit1 sep s)) = false.
Proof.
  unfold py_rsplit1. destruct (rpartition sep s) as [[a b]|] eqn:Hcut.
  - apply rpartition_some in Hcut as [_ Hb]. exact Hb.
  - apply rpartition_none. exact Hcut.
Qed.

Lemma has_char_app_sep sep a b : has_char sep (a +:+ String sep b) = true.
Proof.
  induction a as [|ch a IH]; simpl.
  - rewrite Ascii.eqb_refl. reflexivity.
  - rewrite IH. apply orb_true_r.
Qed.

Lemma lower_ascii_idem c : lower_ascii (lower_ascii c) = lower_ascii c.
Proof. destruct c as [[] [] [] [] [] [] [] []]; reflexivity. Qed.

Lemma py_lower_idem s : py_lower (py_lower s) = py_lower s.
Proof.
  induction s as [|ch s IH]; [reflexivity|].
  cbn [py_lower]. rewrite lower_ascii_idem, IH. reflexivity.
Qed.

Lemma is_ascii_app a b : is_ascii (a +:+ b) = is_ascii a && is_ascii b.
Proof.
  induction a as [|ch a IH]; [reflexivity|].
  change (is_ascii (String ch (a +:+ b))
          = (N_of_ascii ch <? 128)%N && is_ascii a && is_ascii b).
  change (is_ascii (String ch (a +:+ b)))
    with ((N_of_ascii ch <? 128)%N && is_ascii (a +:+ b)).
  rewrite IH. apply andb_assoc.
Qed.

Lemma is_ascii_lower s : is_ascii (py_lower s) = is_ascii s.
Proof.
  induction s as [|ch s IH]; [reflexivity|].
  change (is_ascii (py_lower (String ch s)))
    with ((N_of_ascii (lower_ascii ch) <? 128)%N && is_ascii (py_lower s)).
  change (is_ascii (String ch s)) with ((N_of_ascii ch <? 128)%N && is_ascii s).
  rewrite IH. f_equal. destruct ch as [[] [] [] [] [] [] [] []]; reflexivity.
Qed.

(** The last segment of a text of ASCII characters is one. *)
Lemma is_ascii_last_rsplit sep s :
  is_ascii s = true → is_ascii (last_item (py_rsplit1 sep s)) = true.
Proof.
  intros Hs. unfold py_rsplit1.
  destruct (rpartition sep s) as [[a b]|] eqn:Hcut; [|exact Hs].
  apply rpartition_some in Hcut as [-> _].
  rewrite is_ascii_app in Hs. apply andb_true_iff in Hs as [_ Hb].
  change (is_ascii (String sep b)) with ((N_of_ascii sep <? 128)%N && is_ascii b) in Hb.
  apply andb_true_iff in Hb as [_ Hb]. exact Hb.
Qed.

(** Lowering neither makes nor removes a dot. *)
Lemma has_char_lower_dot s : has_char dot (py_lower s) = has_char dot s.
Proof.
  induction s as [|ch s IH]; [reflexivity|]. cbn [py_lower has_char]. rewrite IH.
  f_equal. destruct ch as [[] [] [] [] [] [] [] []]; reflexivity.
Qed.

End StringFacts.

(** ** Rounding to hundredths *)

Section Rounding.

(** [round_half_even_scaled N e] is an integer nearest to [N * 2^e]: exact
    for [0 <= e], and otherwise within half a unit of [N / 2^(-e)]. *)
Lemma round_half_even_scaled_exact N e :
  0 ≤ e → round_half_even_scaled N e = N * 2 ^ e.
Proof.
  intros He. unfold round_half_even_scaled.
  destruct (Z.leb_spec 0 e); [reflexivity | lia].
Qed.

Lemma round_half_even_scaled_nearest N e :
  e < 0 →
  2 * Z.abs (N - round_half_even_scaled N e * 2 ^ (- e)) ≤ 2 ^ (- e).
Proof.
  intros He. unfold round_half_even_scaled.
  destruct (Z.leb_spec 0 e) as [Hle|_]; [lia|].
  set (d := 2 ^ (- e)).
  assert (Hd : 0 < d) by (apply Z.pow_pos_nonneg; lia).
  pose proof (Z.div_mod N d ltac:(lia)) as Hdm.
  pose proof (Z.mod_pos_bound N d Hd) as Hr.
  cbv zeta.
  destruct (Z.compare_spec (2 * (N mod d)) d) as [Heq|Hlt|Hgt].
  - destruct (Z.even (N / d)); nia.
  - nia.
  - nia.
Qed.

End Rounding.

(** ** The prediction extractor *)

Section Extractor.

Import ImageProcessingService.

(** C1.  Extraction follows the first-match policy.  With no prediction
    (the key missing or the list empty) the result is the sentinel
    ["Predicción no encontrada", 0.0].  Otherwise the result is read off
    the first prediction alone: the label is "Sin Hernia" for the class
    "Sin Hernia" and "Hernia" for every other class, the percentage is the
    confidence times 100 rounded to two decimals, and the predictions
    after the first change nothing.  For a float confidence the rounding
    picks the number of hundredths nearest to the product (exactly the
    product when it is an integer multiple of a power of two).  On the
    example of the specification the result is ("Hernia", 80.0). *)
Theorem extract_prediction_data_first_match :
  (∀ result, default [] (r_predictions result) = [] →
     extract_prediction_data result = ("Predicción no encontrada", PyFloat 0%float))
  ∧ (∀ result first_pred rest,
       default [] (r_predictions result) = first_pred :: rest →
       extract_prediction_data result =
         (if String.eqb (default "Unknown" (p_class first_pred)) "Sin Hernia"
          then "Sin Hernia" else "Hernia",
          py_round2 (num_times_100 (default (PyInt 0) (p_confidence first_pred))))
       ∧ extract_prediction_data result =
         extract_prediction_data {| r_predictions := Some [first_pred] |})
  ∧ (∀ first_pred rest conf s m e,
       p_confidence first_pred = Some (PyFloat conf) →
       Prim2SF (conf * 100)%float = S754_finite s m e →
       ∃ n, snd (extract_prediction_data {| r_predictions := Some (first_pred :: rest) |})
            = PyFloat (float_of_hundredths s n)
            ∧ (0 ≤ e → n = 100 * Z.pos m * 2 ^ e)
            ∧ (e < 0 → 2 * Z.abs (100 * Z.pos m - n * 2 ^ (- e)) ≤ 2 ^ (- e)))
  ∧ extract_prediction_data spec_example = ("Hernia", PyFloat 80%float).
Proof.
  split; [|split; [|split]].
  - intros result Hnil. unfold extract_prediction_data. rewrite Hnil. reflexivity.
  - intros result first_pred rest Hcons. unfold extract_prediction_data.
    rewrite Hcons. split; reflexivity.
  - intros first_pred rest conf s m e Hconf Hsf.
    exists (round_half_even_scaled (100 * Z.pos m) e).
    unfold extract_prediction_data. cbn -[round_half_even_scaled float_round2].
    rewrite Hconf. cbn -[round_half_even_scaled float_round2].
    unfold float_round2. rewrite Hsf.
    split; [reflexivity|]. split.
    + apply round_half_even_scaled_exact.
    + apply round_half_even_scaled_nearest.
  - vm_compute. reflexivity.
Qed.

(** Values of [round(x, 2)] that CPython gives. *)
Example float_round2_values :
  float_round2 (57 / 100 * 100)%float = 57%float
  ∧ float_round2 (2675 / 1000)%float = (267 / 100)%float
  ∧ float_round2 (1 / 8)%float = (12 / 100)%float
  ∧ float_round2 (3 / 8)%float = (38 / 100)%float
  ∧ float_round2 (- (1 / 1000))%float = (-0)%float
  ∧ py_round2 (num_times_100 (PyInt 1)) = PyInt 100.
Proof. vm_compute. repeat split. Qed.

(** X1.  The diagnosis is one of three texts.  It is the sentinel exactly
    when there is no prediction, and "Sin Hernia" exactly when the first
    prediction carries the class "Sin Hernia", letter for letter; a first
    prediction with any other class, or with no class at all, is reported
    as "Hernia". *)
Theorem extract_prediction_data_labels result :
  In (extract_prediction_data result).1 ["Predicción no encontrada"; "Sin Hernia"; "Hernia"]
  ∧ ((extract_prediction_data result).1 = "Predicción no encontrada"
     ↔ default [] (r_predictions result) = [])
  ∧ ((extract_prediction_data result).1 = "Sin Hernia"
     ↔ ∃ first_pred rest, default [] (r_predictions result) = first_pred :: rest
                          ∧ p_class first_pred = Some "Sin Hernia")
  ∧ (∀ first_pred rest, default [] (r_predictions result) = first_pred :: rest →
       p_class first_pred ≠ Some "Sin Hernia" →
       (extract_prediction_data result).1 = "Hernia").
Proof.
  unfold extract_prediction_data.
  destruct (default [] (r_predictions result)) as [|first_pred rest]; cbn.
  - split; [tauto|]. split; [tauto|].
    split; [|discriminate]. split; [discriminate | intros (? & ? & ? & _); discriminate].
  - destruct (p_class first_pred) as [cls|] eqn:Hcls; cbn;
      [destruct (String.eqb_spec cls "Sin Hernia") as [->|Hne]|]; cbn.
    + split; [tauto|]. split; [split; discriminate|].
      split; [split; [eauto | reflexivity]|]. intros ? ? [= <- <-] Hno. congruence.
    + split; [tauto|]. split; [split; discriminate|].
      split; [|reflexivity].
      split; [discriminate | intros (? & ? & [= <- <-] & Heq); congruence].
    + split; [tauto|]. split; [split; discriminate|].
      split; [|reflexivity].
      split; [discriminate | intros (? & ? & [= <- <-] & Heq); congruence].
Qed.

End Extractor.

(** ** The extension check *)

Section Extension.

Import ImageValidator.

Lemma validate_file_extension_no_dot filename :
  has_char dot filename = false →
  validate_file_extension filename = str_in (py_lower filename) ALLOWED_EXTENSIONS.
Proof.
  intros Hdot. unfold validate_file_extension, py_rsplit1.
  rewrite (rpartition_dotless _ _ Hdot). reflexivity.
Qed.

(** With a dot, the extension is what follows the last dot. *)
Lemma validate_file_extension_dotted base ext :
  has_char dot ext = false →
  validate_file_extension (base +:+ String dot ext) = str_in (py_lower ext) ALLOWED_EXTENSIONS.
Proof.
  intros Hdot. unfold validate_file_extension, py_rsplit1.
  rewrite (rpartition_app _ _ _ Hdot). reflexivity.
Qed.

(** C10.  For a filename with no dot the extension check compares the
    whole lowercased filename with the allowed set: the check passes
    exactly when the lowercased name is one of jpg, jpeg, png, gif, bmp. *)
Theorem validate_file_extension_dotless filename :
  has_char dot filename = false →
  validate_file_extension filename = str_in (py_lower filename) ALLOWED_EXTENSIONS
  ∧ (validate_file_extension filename = true ↔
     In (py_lower filename) ["jpg"; "jpeg"; "png"; "gif"; "bmp"]).
Proof.
  intros Hdot. rewrite (validate_file_extension_no_dot _ Hdot).
  split; [reflexivity | apply str_in_spec].
Qed.

Lemma validate_file_extension_dotless_witness :
  validate_file_extension "JpG" = true ∧ validate_file_extension "jpgx" = false.
Proof.
  split.
  - apply (validate_file_extension_dotless "JpG"); [reflexivity | vm_compute; tauto].
  - destruct (validate_file_extension_dotless "jpgx" eq_refl) as [-> _]. reflexivity.
Defined.

(** The validator reads the extension off the last segment whether or not
    there is a dot. *)
Lemma validate_file_extension_last filename :
  validate_file_extension filename
  = str_in (py_lower (last_item (py_split dot filename))) ALLOWED_EXTENSIONS.
Proof. unfold validate_file_extension. rewrite <- last_split_rsplit. reflexivity. Qed.

(** X2.  [get_file_extension] of [utils.py] and the validator's extension
    check, on names of ASCII characters (whatever [lower()] does to other
    texts).  The helper returns a text without a dot that [lower()] leaves
    as it is: what follows the last dot of the name, with A-Z lowered,
    and the empty text for a name without a dot.  Every name whose helper
    extension is allowed passes the validator's check; the two differ only
    on names without a dot, where the validator compares the whole name
    and the helper gives the empty extension. *)
Theorem get_file_extension_agrees lower_unicode filename :
  is_ascii filename = true →
  has_char dot (Utils.get_file_extension lower_unicode filename) = false
  ∧ str_lower lower_unicode (Utils.get_file_extension lower_unicode filename)
    = Utils.get_file_extension lower_unicode filename
  ∧ (∀ base ext, has_char dot ext = false → filename = base +:+ String dot ext →
       Utils.get_file_extension lower_unicode filename = py_lower ext)
  ∧ (has_char dot filename = false → Utils.get_file_extension lower_unicode filename = "")
  ∧ (str_in (Utils.get_file_extension lower_unicode filename) ALLOWED_EXTENSIONS = true →
       validate_file_extension filename = true)
  ∧ (validate_file_extension filename = true →
       str_in (Utils.get_file_extension lower_unicode filename) ALLOWED_EXTENSIONS = false →
       has_char dot filename = false
       ∧ In (py_lower filename) ["jpg"; "jpeg"; "png"; "gif"; "bmp"]).
Proof.
  intros Hascii. unfold Utils.get_file_extension.
  destruct (has_char dot filename) eqn:Hdot.
  - assert (Hext : is_ascii (last_item (py_rsplit1 dot filename)) = true)
      by (apply is_ascii_last_rsplit; exact Hascii).
    assert (Hlower : str_lower lower_unicode (last_item (py_rsplit1 dot filename))
                     = py_lower (last_item (py_rsplit1 dot filename)))
      by (unfold str_lower; rewrite Hext; reflexivity).
    rewrite Hlower.
    split; [rewrite has_char_lower_dot; apply last_rsplit_no_sep|].
    split; [unfold str_lower; rewrite is_ascii_lower, Hext; apply py_lower_idem|].
    split; [intros base ext Hdotless ->; unfold py_rsplit1;
            rewrite (rpartition_app _ _ _ Hdotless); reflexivity|].
    split; [discriminate|].
    split; [intros Hin; exact Hin|].
    intros Hok Hno. unfold validate_file_extension in Hok. congruence.
  - split; [reflexivity|]. split; [reflexivity|].
    split; [intros base ext _ ->; rewrite has_char_app_sep in Hdot; discriminate|].
    split; [reflexivity|].
    split; [discriminate|].
    intros Hok _. split; [reflexivity|].
    rewrite (validate_file_extension_no_dot _ Hdot) in Hok.
    apply str_in_spec. exact Hok.
Qed.

Lemma get_file_extension_agrees_witness :
  Utils.get_file_extension (λ s, s) "scan.JPG" = "jpg".
Proof.
  destruct (get_file_extension_agrees (λ s, s) "scan.JPG" eq_refl)
    as (_ & _ & Hext & _).
  apply (Hext "scan" "JPG"); reflexivity.
Defined.

End Extension.

(** ** Stored file names *)

Section StoredNames.

Import ImageProcessingService.





(** X3.  The stored name and the extension check agree on the extension.
    The stored name is the digest, a dot, and a dot-free extension, and
    that extension, lowered, is the one the validator looks up in the
    allowed set (although one function cuts with [split] and the other
    with [rsplit]).  So the stored name passes the extension check exactly
    when the original name does.  For a name without a dot the extension
    is the whole name: the original name is readable in the stored one. *)
Theorem stored_name_keeps_extension name :
  ∃ ext,
    generate_encrypted_filename name = Sha256.hexdigest name +:+ String dot ext
    ∧ has_char dot ext = false
    ∧ ImageValidator.validate_file_extension name
      = str_in (py_lower ext) ImageValidator.ALLOWED_EXTENSIONS
    ∧ ImageValidator.validate_file_extension (generate_encrypted_filename name)
      = ImageValidator.validate_file_extension name
    ∧ (has_char dot name = false → ext = name).
Proof.
  exists (last_item (py_split dot name)).
  assert (Hext : has_char dot (last_item (py_split dot name)) = false)
    by (rewrite last_split_rsplit; apply last_rsplit_no_sep).
  pose proof (validate_file_extension_last name) as Hcheck.
  split; [reflexivity|]. split; [exact Hext|]. split; [exact Hcheck|]. split.
  - unfold generate_encrypted_filename.
    change (Sha256.hexdigest name +:+ "." +:+ last_item (py_split dot name))
      with (Sha256.hexdigest name +:+ String dot (last_item (py_split dot name))).
    rewrite (validate_file_extension_dotted _ _ Hext). symmetry. exact Hcheck.
  - intros Hdot. rewrite (py_split_dotless _ _ Hdot). reflexivity.
Qed.

End StoredNames.

(** ** Running the monad *)

Ltac unfold_monad :=
  unfold mbind, M_bind, mret, M_ret, raise, try_except, modify, gets, logger,
    messages, getattr, getitem, lift_outcome, fmap, option_fmap, option_map in *.

(** Case analysis on the next external call of the goal. *)
Ltac next_fault :=
  match goal with
  | |- context [fault ?E ?t ?o] =>
      let Hf := fresh "Hfault" in destruct (fault E t o) eqn:Hf
  end.

(** Case analysis on the next test of the program in the goal: an external
    call, an exception class, a table lookup, a comparison. *)
Ltac step_run :=
  first
    [ next_fault
    | match goal with
      | |- context [isinstance ?e ?c] => destruct (isinstance e c) eqn:?
      | |- context [@lookup _ _ (gmap _ _) _ ?k ?m] => destruct (m !! k) eqn:?
      | |- context [Z.eqb (h_user ?h) ?b] => destruct (Z.eqb_spec (h_user h) b)
      | |- context [String.eqb (h_imagen ?h) ?b] => destruct (String.eqb_spec (h_imagen h) b)
      end ].

(** Membership of a failed call in an explicit list of events. *)
Ltac in_events H :=
  simpl in H;
  repeat (destruct H as [H|H];
          [first [ discriminate
                 | split; reflexivity
                 | injection H as ? ?; subst; first [split; reflexivity | congruence] ]|]);
  destruct H.

(** ** Image validation *)

Section Validation.

Import ImageValidator.

Local Arguments validate_file_extension : simpl never.
Local Arguments validate_file_size : simpl never.
Local Arguments validate_image_dimensions : simpl never.

Example size_message_value :
  (of_uint63 (Uint63.of_Z MAX_FILE_SIZE) / 1024 / 1024 = 10)%float.
Proof. vm_compute. reflexivity. Qed.

Example dimension_message_value : dimension_message = "Dimensiones inválidas (100-10000px)".
Proof. vm_compute. reflexivity. Qed.

(** C3.  The checks run in the order extension, size, decoding, and the
    first failure decides.  A file whose extension check fails is rejected
    with the format message whatever its size and content, and nothing
    else is looked at (the world is left as it was); a file with an allowed
    extension and a size of 0 or above 10*1024*1024 bytes is rejected with
    the size message whatever its content.  The extension of a name is
    what follows its last dot (of a name without a dot, the name itself):
    the extension check is membership of the lowercased extension in
    jpg, jpeg, png, gif, bmp. *)
Theorem validate_image_check_order E f w :
  (validate_file_extension (f_name f) = false →
     validate_image E (Some f) w
     = (Return (false, Some "Formato de archivo no permitido"), w))
  ∧ (validate_file_extension (f_name f) = true →
     f_size f = 0 ∨ f_size f > 10 * 1024 * 1024 →
     validate_image E (Some f) w
     = (Return (false, Some "Archivo demasiado grande (máximo 10.0MB)"), w))
  ∧ (∀ base ext, has_char dot ext = false →
     (validate_file_extension (base +:+ String dot ext) = true ↔
      In (py_lower ext) ["jpg"; "jpeg"; "png"; "gif"; "bmp"]))
  ∧ (∀ name, has_char dot name = false →
     (validate_file_extension name = true ↔
      In (py_lower name) ["jpg"; "jpeg"; "png"; "gif"; "bmp"])).
Proof.
  split; [|split; [|split]].
  - intros Hext. unfold validate_image. unfold_monad. cbn. rewrite Hext. reflexivity.
  - intros Hext Hsize. unfold validate_image. unfold_monad. cbn. rewrite Hext. cbn.
    assert (Hs : validate_file_size (f_size f) = false).
    { unfold validate_file_size, MAX_FILE_SIZE.
      destruct Hsize as [-> | Hbig]; [reflexivity|].
      apply andb_false_iff. right. apply Z.leb_gt. lia. }
    rewrite Hs. reflexivity.
  - intros base ext Hdot. rewrite (validate_file_extension_dotted _ _ Hdot).
    apply str_in_spec.
  - intros name Hdot. rewrite (validate_file_extension_no_dot _ Hdot).
    apply str_in_spec.
Qed.

Lemma validate_image_check_order_witness :
  (validate_image quiet_env
     (Some {| f_name := "informe.PDF"; f_size := 0; f_content := "" |}) empty_world).1
  = Return (false, Some "Formato de archivo no permitido")
  ∧ (validate_image quiet_env
       (Some {| f_name := "torax.JPG"; f_size := 10485761; f_content := "image bytes" |})
       empty_world).1
    = Return (false, Some "Archivo demasiado grande (máximo 10.0MB)").
Proof.
  split.
  - destruct (validate_image_check_order quiet_env
                {| f_name := "informe.PDF"; f_size := 0; f_content := "" |} empty_world)
      as [Hformat _].
    rewrite Hformat; reflexivity.
  - destruct (validate_image_check_order quiet_env
                {| f_name := "torax.JPG"; f_size := 10485761; f_content := "image bytes" |}
                empty_world) as [_ [Hsize _]].
    rewrite Hsize; [reflexivity | reflexivity | right; reflexivity].
Defined.

(** Every run of the validation, with what it leaves behind. *)
Lemma validate_image_run E file_obj w :
  ∃ accepted reason w' evs,
    validate_image E file_obj w = (Return (accepted, reason), w')
    ∧ db w' = db w ∧ storage w' = storage w ∧ flash w' = flash w ∧ clock w' = clock w
    ∧ trace w' = (trace w ++ evs)%list
    ∧ Forall (λ ev, decoding_op (op_of ev) = true) evs
    ∧ (∀ o e, In (Failed o e) evs →
         accepted = false ∧ reason = Some "Archivo no es una imagen válida")
    ∧ (accepted = true → reason = None ∧ is_Some file_obj).
Proof.
  unfold validate_image, pil_open, perform. unfold_monad.
  destruct file_obj as [f|]; cbn;
    repeat (first
              [ match goal with
                | |- context [validate_file_extension ?n] => destruct (validate_file_extension n)
                | |- context [validate_file_size ?n] => destruct (validate_file_size n)
                end
              | next_fault
              | match goal with
                | |- context [pil_identify ?E ?c] => destruct (pil_identify E c)
                | |- context [validate_image_dimensions ?i] =>
                    destruct (validate_image_dimensions i)
                end ]; cbn);
    (do 4 eexists; split; [reflexivity|]; cbn;
     split; [reflexivity|]; split; [reflexivity|]; split; [reflexivity|];
     split; [reflexivity|];
     split; [first [rewrite <- ?app_assoc; reflexivity | symmetry; apply app_nil_r]|];
     split; [repeat constructor|];
     split; [intros o e' Hin; in_events Hin
            | first [discriminate | intros _; split; [reflexivity | eauto]] ]).
Qed.

(** C8.  Validation always returns a pair and never raises, whatever the
    file object (a missing file included) and whatever fails underneath:
    the database, the file storage and the user messages are left as they
    were, and the only external calls are those that decode the file; an
    accepted file has no reason; and whenever a call made while decoding
    fails, the result is the rejection "Archivo no es una imagen válida". *)
Theorem validate_image_total E file_obj w :
  ∃ accepted reason w' evs,
    validate_image E file_obj w = (Return (accepted, reason), w')
    ∧ db w' = db w ∧ storage w' = storage w ∧ flash w' = flash w ∧ clock w' = clock w
    ∧ trace w' = (trace w ++ evs)%list
    ∧ Forall (λ ev, decoding_op (op_of ev) = true) evs
    ∧ (∀ o e, In (Failed o e) evs →
         accepted = false ∧ reason = Some "Archivo no es una imagen válida")
    ∧ (accepted = true → reason = None).
Proof.
  destruct (validate_image_run E file_obj w)
    as (accepted & reason & w' & evs & Hrun & Hdb & Hst & Hfl & Hcl & Htr & Hall & Hfail & Hacc).
  exists accepted, reason, w', evs.
  split; [exact Hrun|]. split; [exact Hdb|]. split; [exact Hst|].
  split; [exact Hfl|]. split; [exact Hcl|]. split; [exact Htr|].
  split; [exact Hall|]. split; [exact Hfail|].
  intros Htrue. exact (proj1 (Hacc Htrue)).
Qed.

Lemma validate_image_total_witness :
  ∃ accepted reason,
    (validate_image quiet_env None empty_world).1 = Return (accepted, reason)
    ∧ (validate_image quiet_env None empty_world).2.(db) = empty_db.
Proof.
  destruct (validate_image_total quiet_env None empty_world)
    as (accepted & reason & w' & evs & Hrun & Hdb & _).
  exists accepted, reason. rewrite Hrun. split; [reflexivity | exact Hdb].
Defined.

(** A file that is not an image, a file that is too small, and a file that
    passes. *)
Example validate_image_values :
  (validate_image quiet_env None empty_world).1
  = Return (false, Some "Error al validar la imagen")
  ∧ (validate_image (env_with (λ _ o, match o with
                                      | PilVerify => Some (Exn OSError "truncated file")
                                      | _ => None
                                      end) (λ _, []))
       (FILES_imagen sample_request) empty_world).1
    = Return (false, Some "Archivo no es una imagen válida")
  ∧ (validate_image quiet_env (FILES_imagen sample_request) empty_world).1
    = Return (true, None).
Proof. vm_compute. repeat split. Qed.

Lemma validate_file_size_bounds file_size :
  validate_file_size file_size = true ↔ 0 < file_size ≤ 10 * 1024 * 1024.
Proof.
  unfold validate_file_size, MAX_FILE_SIZE.
  rewrite andb_true_iff, Z.ltb_lt, Z.leb_le. lia.
Qed.

Lemma validate_image_dimensions_bounds image :
  validate_image_dimensions image = true
  ↔ 100 ≤ (pil_size image).1 ≤ 10000 ∧ 100 ≤ (pil_size image).2 ≤ 10000.
Proof.
  unfold validate_image_dimensions, MIN_DIMENSION, MAX_DIMENSION.
  destruct (pil_size image) as [width height]. cbn.
  rewrite !andb_true_iff, !Z.leb_le. lia.
Qed.

(** The run of the validation when no call of the decoder fails. *)
Lemma validate_image_quiet E f w :
  (∀ t o, decoding_op o = true → fault E t o = None) →
  (validate_image E (Some f) w).1 =
  Return
    (if negb (validate_file_extension (f_name f))
     then (false, Some "Formato de archivo no permitido")
     else if negb (validate_file_size (f_size f))
          then (false, Some size_message)
          else match pil_identify E (f_content f) with
               | None => (false, Some "Archivo no es una imagen válida")
               | Some sz =>
                   if negb (validate_image_dimensions
                              {| pil_size := sz; pil_data := f_content f |})
                   then (false, Some dimension_message)
                   else (true, None)
               end).
Proof.
  intros Hquiet. unfold validate_image, pil_open, perform. unfold_monad. cbn.
  destruct (validate_file_extension (f_name f)); cbn; [|reflexivity].
  destruct (validate_file_size (f_size f)); cbn; [|reflexivity].
  rewrite !Hquiet by reflexivity. cbn.
  destruct (pil_identify E (f_content f)) as [sz|]; cbn; [|reflexivity].
  rewrite !Hquiet by reflexivity. cbn.
  destruct (validate_image_dimensions _); reflexivity.
Qed.

(** X4.  What the validation accepts.  When no call of the decoder fails,
    a file is accepted exactly when its extension is allowed, its size is
    between 1 byte and 10*1024*1024 bytes inclusive, its content is
    recognised as an image, and its width and its height are both between
    100 and 10000 pixels inclusive. *)
Theorem validate_image_accepts E f w :
  (∀ t o, decoding_op o = true → fault E t o = None) →
  (validate_image E (Some f) w).1 = Return (true, None)
  ↔ validate_file_extension (f_name f) = true
    ∧ 0 < f_size f ≤ 10 * 1024 * 1024
    ∧ ∃ width height,
        pil_identify E (f_content f) = Some (width, height)
        ∧ 100 ≤ width ≤ 10000 ∧ 100 ≤ height ≤ 10000.
Proof.
  intros Hquiet. rewrite (validate_image_quiet _ _ _ Hquiet).
  rewrite <- validate_file_size_bounds.
  destruct (validate_file_extension (f_name f)); cbn;
    [|split; [discriminate | intros [? _]; discriminate]].
  destruct (validate_file_size (f_size f)); cbn;
    [|split; [discriminate | intros (_ & ? & _); discriminate]].
  destruct (pil_identify E (f_content f)) as [[width height]|]; cbn;
    [|split; [discriminate | intros (_ & _ & ? & ? & ? & _); discriminate]].
  destruct (validate_image_dimensions _) eqn:Hdim; cbn.
  - apply validate_image_dimensions_bounds in Hdim. cbn in Hdim.
    split; [|reflexivity]. intros _. split; [reflexivity|]. split; [reflexivity|].
    exists width, height. split; [reflexivity | exact Hdim].
  - split; [discriminate|]. intros (_ & _ & width' & height' & Heq & Hwidth & Hheight).
    injection Heq as <- <-.
    assert (Hok : validate_image_dimensions
                    {| pil_size := (width, height); pil_data := f_content f |} = true)
      by (apply validate_image_dimensions_bounds; cbn; lia).
    congruence.
Qed.

Lemma validate_image_accepts_witness :
  (validate_image quiet_env (FILES_imagen sample_request) empty_world).1
  = Return (true, None).
Proof.
  apply (validate_image_accepts quiet_env
           {| f_name := "xray.jpg"; f_size := 2097152; f_content := "image bytes" |}
           empty_world).
  - intros t o _. reflexivity.
  - split; [reflexivity|]. split; [cbn; lia|].
    exists 500, 500. split; [reflexivity | lia].
Defined.

(** X5.  The bounds on the dimensions.  A file that passes the extension
    and size checks and decodes, but whose width or height is below 100 or
    above 10000 pixels, is rejected with the message
    "Dimensiones inválidas (100-10000px)"; a content that is not
    recognised as an image is rejected with "Archivo no es una imagen
    válida". *)
Theorem validate_image_dimension_limits E f w :
  (∀ t o, decoding_op o = true → fault E t o = None) →
  validate_file_extension (f_name f) = true →
  0 < f_size f ≤ 10 * 1024 * 1024 →
  (∀ width height, pil_identify E (f_content f) = Some (width, height) →
     width < 100 ∨ 10000 < width ∨ height < 100 ∨ 10000 < height →
     (validate_image E (Some f) w).1
     = Return (false, Some "Dimensiones inválidas (100-10000px)"))
  ∧ (pil_identify E (f_content f) = None →
     (validate_image E (Some f) w).1
     = Return (false, Some "Archivo no es una imagen válida")).
Proof.
  intros Hquiet Hext Hsize. rewrite (validate_image_quiet _ _ _ Hquiet), Hext.
  apply validate_file_size_bounds in Hsize. rewrite Hsize. cbn. split.
  - intros width height -> Hout.
    destruct (validate_image_dimensions _) eqn:Hdim; [|reflexivity].
    apply validate_image_dimensions_bounds in Hdim. cbn in Hdim. lia.
  - intros ->. reflexivity.
Qed.

Lemma validate_image_dimension_limits_witness :
  (validate_image (env_with_size (99, 500))
     (FILES_imagen sample_request) empty_world).1
  = Return (false, Some "Dimensiones inválidas (100-10000px)").
Proof.
  destruct (validate_image_dimension_limits (env_with_size (99, 500))
              {| f_name := "xray.jpg"; f_size := 2097152; f_content := "image bytes" |}
              empty_world) as [Hdim _].
  - intros t o _. reflexivity.
  - reflexivity.
  - cbn. lia.
  - apply (Hdim 99 500); [reflexivity | lia].
Defined.

End Validation.

(** ** Fetching the stored image and asking the model *)

Section Fetching.

Import ImageProcessingService.

Local Arguments String.eqb : simpl never.
Local Arguments isinstance : simpl never.

(** X6.  The download never raises.  Whatever the server answers and
    whatever fails, [download_image] returns an image or [None]; it leaves
    the database, the storage and the user messages alone; its only calls
    are the HTTP request for that URL and the decoding of the answer; and
    when one of them fails the result is [None]. *)
Theorem download_image_total E image_url w :
  ∃ r w' evs,
    download_image E image_url w = (Return r, w')
    ∧ db w' = db w ∧ storage w' = storage w ∧ flash w' = flash w ∧ clock w' = clock w
    ∧ trace w' = (trace w ++ evs)%list
    ∧ Forall (λ ev, In (op_of ev) [HttpGet image_url; PilOpen; PilConvert]) evs
    ∧ (∀ o e, In (Failed o e) evs → r = None)
    ∧ (r ≠ None → log w' = log w).
Proof.
  unfold download_image, pil_open, perform. unfold_monad. cbn.
  destruct (http_response E image_url) as [status content].
  destruct (Z.leb_spec 400 status), (Z.ltb_spec status 600); cbn;
  repeat (first [ next_fault
                | match goal with
                  | |- context [isinstance ?e ?c] => destruct (isinstance e c) eqn:?
                  | |- context [String.eqb ?a ""] => destruct (String.eqb_spec a "")
                  | |- context [pil_identify ?E ?c] => destruct (pil_identify E c) eqn:?
                  end ]; cbn);
    (do 3 eexists; split; [reflexivity|]; cbn;
     split; [reflexivity|]; split; [reflexivity|]; split; [reflexivity|];
     split; [reflexivity|];
     split; [first [rewrite <- ?app_assoc; reflexivity | symmetry; apply app_nil_r]|];
     split; [repeat constructor; cbn; tauto|];
     split; [intros o e' Hin; in_events Hin|];
     intros Hsome; first [reflexivity | congruence]).
Qed.

(** X7.  What the download returns.  When no call fails, the result is an
    image exactly when the status of the answer is not a 4xx or 5xx error,
    the body is not empty and the body is recognised as an image; the
    image then has the body as its data and the size read from it.  An
    answer with another status than 200 (a 204 or a 301, say) is not
    turned down for its status. *)
Theorem download_image_result E image_url w status content :
  (∀ t o, fault E t o = None) →
  http_response E image_url = (status, content) →
  ∃ r,
    (download_image E image_url w).1 = Return r
    ∧ (is_Some r ↔ ¬ (400 ≤ status < 600) ∧ content ≠ "" ∧ is_Some (pil_identify E content))
    ∧ (∀ img, r = Some img →
         pil_data img = content ∧ pil_identify E content = Some (pil_size img)).
Proof.
  intros Hquiet Hresp.
  unfold download_image, pil_open, perform. unfold_monad. cbn.
  rewrite Hquiet, Hresp. cbn.
  destruct (Z.leb_spec 400 status), (Z.ltb_spec status 600); cbn;
    try (eexists; split; [reflexivity|];
         split; [split; [intros [? [=]] | intros [? _]; lia] | discriminate]).
  all: destruct (String.eqb_spec content "") as [->|Hbody]; cbn;
    [eexists; split; [reflexivity|];
     split; [split; [intros [? [=]] | intros (_ & ? & _); congruence] | discriminate]|].
  all: rewrite Hquiet; cbn.
  all: destruct (pil_identify E content) as [sz|] eqn:Hid; cbn; rewrite ?Hquiet; cbn;
    [ eexists; split; [reflexivity|]; split;
      [ split; [intros _; split; [lia|]; split; [assumption | eauto] | intros _; eauto]
      | intros img [= <-]; split; reflexivity ]
    | eexists; split; [reflexivity|]; split;
      [ split; [intros [? [=]] | intros (_ & _ & [? [=]])] | discriminate ] ].
Qed.

Lemma download_image_result_witness :
  ∃ img, (download_image quiet_env "/media/xray.jpg" empty_world).1 = Return (Some img)
         ∧ pil_size img = (500, 500).
Proof.
  destruct (download_image_result quiet_env "/media/xray.jpg" empty_world 200 "image bytes")
    as (r & Hrun & Hsome & Himg).
  - intros t o. reflexivity.
  - reflexivity.
  - destruct Hsome as [_ [img Hr]].
    + split; [lia|]. split; [discriminate | eauto].
    + exists img. subst r. split; [exact Hrun|].
      destruct (Himg img eq_refl) as [_ Hid]. cbn in Hid.
      injection Hid as Hsize. symmetry. exact Hsize.
Defined.

(** X8.  Inference never raises, and without an API key nothing is asked.
    [get_inference_result] returns a result or [None] and leaves the
    database, the storage and the user messages alone.  When the key is
    missing or empty, the result is [None], no call is made, and the log
    says that the key is not configured.  With a key there is exactly one
    call, to the model "proy_2/1" for that URL: its answer is the result,
    and its failure gives [None] with the failure in the log. *)
Theorem get_inference_result_total E image_url w :
  ∃ r w' evs,
    get_inference_result E image_url w = (Return r, w')
    ∧ db w' = db w ∧ storage w' = storage w ∧ flash w' = flash w
    ∧ trace w' = (trace w ++ evs)%list
    ∧ (ROBOFLOW_API_KEY E = None ∨ ROBOFLOW_API_KEY E = Some "" →
       r = None ∧ evs = []
       ∧ log w' = (log w ++ [(ERROR, "Error en inferencia: ROBOFLOW_API_KEY no está configurada en settings")])%list)
    ∧ (∀ key, ROBOFLOW_API_KEY E = Some key → key ≠ "" →
       (r = Some (infer_response E image_url)
        ∧ evs = [Did (Infer image_url "proy_2/1")] ∧ log w' = log w)
       ∨ (∃ e, r = None ∧ evs = [Failed (Infer image_url "proy_2/1") e]
               ∧ log w' = (log w ++ [(ERROR, "Error en inferencia: " +:+ exn_msg e)])%list)).
Proof.
  unfold get_inference_result, get_inference_client, perform, MODEL_ID. unfold_monad.
  destruct (ROBOFLOW_API_KEY E) as [[|c key]|]; cbn;
    try next_fault; cbn;
    (do 3 eexists; split; [reflexivity|]; cbn;
     split; [reflexivity|]; split; [reflexivity|]; split; [reflexivity|];
     split; [first [reflexivity | symmetry; apply app_nil_r]|];
     split; [first [ intros _; repeat split; reflexivity
                   | intros [H|H]; discriminate H ]|];
     intros key' Hkey Hne;
     first [ discriminate Hkey
           | injection Hkey as <-; congruence
           | left; repeat split; reflexivity
           | right; eexists; repeat split; reflexivity ]).
Qed.

End Fetching.

(** ** Authentication *)

Section Authentication.

Import AuthenticationService.

(** C9.  A failed login does not tell whether the email is registered.
    When the user table is readable, a login with an email that no account
    has, and a login with the email of exactly one account whose password
    does not check, both return no user and the same message, "Correo
    electrónico o contraseña incorrectos.": the two results are equal. *)
Theorem authenticate_by_email_indistinguishable E email password password' w w' u :
  (∀ t, fault E t (DbSelect "User") = None) →
  filter (λ x, u_email x = email) (user_tbl (db w)) = [] →
  filter (λ x, u_email x = email) (user_tbl (db w')) = [u] →
  (∀ x, x ∈ user_tbl (db w') → u_username x = u_username u →
        check_password E password' (u_password x) = false) →
  (authenticate_by_email E email password w).1
    = Return (None, Some "Correo electrónico o contraseña incorrectos.")
  ∧ (authenticate_by_email E email password' w').1
    = Return (None, Some "Correo electrónico o contraseña incorrectos.")
  ∧ (authenticate_by_email E email password w).1
    = (authenticate_by_email E email password' w').1.
Proof.
  intros Hdb Hnone Hone Hwrong.
  assert (H1 : (authenticate_by_email E email password w).1
               = Return (None, Some "Correo electrónico o contraseña incorrectos.")).
  { unfold authenticate_by_email, user_get_by_email, perform. unfold_monad.
    rewrite Hdb. cbn. rewrite Hnone. reflexivity. }
  assert (H2 : (authenticate_by_email E email password' w').1
               = Return (None, Some "Correo electrónico o contraseña incorrectos.")).
  { unfold authenticate_by_email, user_get_by_email, authenticate, perform. unfold_monad.
    rewrite Hdb. cbn. rewrite Hone. cbn. rewrite Hdb. cbn.
    destruct (filter (λ x, u_username x = u_username u) (user_tbl (db w'))) as [|x rest] eqn:Hf.
    - reflexivity.
    - assert (Hx : x ∈ filter (λ x, u_username x = u_username u) (user_tbl (db w')))
        by (rewrite Hf; left).
      apply list_elem_of_filter in Hx as [Hname Hin].
      rewrite (Hwrong x Hin Hname). reflexivity. }
  rewrite H1, H2. auto.
Qed.

Lemma authenticate_by_email_indistinguishable_witness :
  (authenticate_by_email quiet_env "ana@example.org" "guess" empty_world).1
  = (authenticate_by_email quiet_env "ana@example.org" "guess" one_user_world).1.
Proof.
  apply (authenticate_by_email_indistinguishable quiet_env "ana@example.org"
           "guess" "guess" empty_world one_user_world sample_user).
  - reflexivity.
  - reflexivity.
  - reflexivity.
  - intros x Hx Hname. apply list_elem_of_singleton in Hx. subst x. reflexivity.
Defined.

Local Arguments isinstance : simpl never.


(** X10.  The login that succeeds, and the account that is switched off.
    When the table of users can be read, exactly one account has the email
    and its name is its own, then: if the password checks and the account
    is active, the account is returned with no message; if the account is
    not active, the answer is the same message as for a wrong password,
    whatever the password. *)
Theorem authenticate_by_email_accepts E email password w u :
  (∀ t, fault E t (DbSelect "User") = None) →
  filter (λ x, u_email x = email) (user_tbl (db w)) = [u] →
  filter (λ x, u_username x = u_username u) (user_tbl (db w)) = [u] →
  (check_password E password (u_password u) = true → u_is_active u = true →
     (authenticate_by_email E email password w).1 = Return (Some u, None))
  ∧ (u_is_active u = false →
     (authenticate_by_email E email password w).1
     = Return (None, Some "Correo electrónico o contraseña incorrectos.")).
Proof.
  intros Hdb Hemail Hname.
  unfold authenticate_by_email, user_get_by_email, authenticate, perform. unfold_monad.
  rewrite Hdb. cbn. rewrite Hemail. cbn. rewrite Hdb. cbn. rewrite Hname. cbn.
  split.
  - intros -> ->. reflexivity.
  - intros ->. rewrite andb_false_r. reflexivity.
Qed.

Lemma authenticate_by_email_accepts_witness :
  (authenticate_by_email quiet_env "ana@example.org" "secret" one_user_world).1
  = Return (Some sample_user, None).
Proof.
  destruct (authenticate_by_email_accepts quiet_env "ana@example.org" "secret"
              one_user_world sample_user) as [Hok _].
  - reflexivity.
  - reflexivity.
  - reflexivity.
  - apply Hok; reflexivity.
Defined.

(** X11.  Two accounts with one email lock each other out.  When the table
    of users can be read and more than one account has the email, the
    login fails with "Error al procesar la autenticación." whatever the
    password, the right one included; no password is checked.  The log
    gets the text of the lookup's failure, which tells how many accounts
    were found: for two accounts, "get() returned more than one User --
    it returned 2!". *)
Theorem authenticate_by_email_duplicate_email E email password w u1 u2 rest :
  fault E (trace w) (DbSelect "User") = None →
  filter (λ x, u_email x = email) (user_tbl (db w)) = u1 :: u2 :: rest →
  ∃ w',
    authenticate_by_email E email password w
    = (Return (None, Some "Error al procesar la autenticación."), w')
    ∧ db w' = db w
    ∧ trace w' = (trace w ++ [Did (DbSelect "User")])%list
    ∧ log w' = (log w ++ [(ERROR, "Error en autenticación: "
                                  +:+ multiple_objects_message "User"
                                        (length (u1 :: u2 :: rest)))])%list
    ∧ (rest = [] →
       log w' = (log w ++ [(ERROR, "Error en autenticación: get() returned more than one User -- it returned 2!")])%list).
Proof.
  intros Hdb Hemail.
  unfold authenticate_by_email, user_get_by_email, perform. unfold_monad.
  rewrite Hdb. cbn. rewrite Hemail. cbn.
  eexists. split; [reflexivity|]. cbn.
  split; [reflexivity|]. split; [reflexivity|]. split; [reflexivity|].
  intros ->. reflexivity.
Qed.

Lemma authenticate_by_email_duplicate_email_witness :
  (authenticate_by_email quiet_env "ana@example.org" "secret" shared_email_world).1
  = Return (None, Some "Error al procesar la autenticación.")
  ∧ log (authenticate_by_email quiet_env "ana@example.org" "secret" shared_email_world).2
    = [(ERROR, "Error en autenticación: get() returned more than one User -- it returned 2!")].
Proof.
  destruct (authenticate_by_email_duplicate_email quiet_env "ana@example.org" "secret"
              shared_email_world sample_user namesake_user [])
    as (w' & Hrun & _ & _ & _ & Hlog).
  - reflexivity.
  - reflexivity.
  - rewrite Hrun. split; [reflexivity|]. exact (Hlog eq_refl).
Defined.

(** X12.  Asking for a password reset tells whether the email is registered,
    and sends nothing.  [send_password_reset_email] never raises; its one
    call is the lookup of the user, and the database, the storage and the
    user messages are left as they were.  When the table can be read, it
    answers success exactly when one account has the email, and answers
    "El correo electrónico no está registrado en nuestro sistema." when no
    account has it: unlike the login, the two cases are told apart. *)
Theorem send_password_reset_email_reveals E email w :
  ∃ ok msg w' ev,
    send_password_reset_email E email w = (Return (ok, msg), w')
    ∧ db w' = db w ∧ storage w' = storage w ∧ flash w' = flash w
    ∧ trace w' = (trace w ++ [ev])%list ∧ op_of ev = DbSelect "User"
    ∧ (fault E (trace w) (DbSelect "User") = None →
       (ok = true ↔ ∃ u, filter (λ x, u_email x = email) (user_tbl (db w)) = [u])
       ∧ (filter (λ x, u_email x = email) (user_tbl (db w)) = [] →
          msg = "El correo electrónico no está registrado en nuestro sistema.")
       ∧ (ok = true →
          msg = "Se ha enviado un enlace para restablecer la contraseña a tu correo electrónico.")).
Proof.
  unfold send_password_reset_email, user_get_by_email, perform. unfold_monad. cbn.
  destruct (fault E (trace w) (DbSelect "User")) as [e|] eqn:Hfault; cbn.
  - destruct (isinstance e (DoesNotExist "User"));
      (do 4 eexists; split; [reflexivity|]; cbn; repeat split; discriminate).
  - destruct (filter (λ x, u_email x = email) (user_tbl (db w))) as [|u [|u' rest]] eqn:Hf; cbn;
      (do 4 eexists; split; [reflexivity|]; cbn;
       split; [reflexivity|]; split; [reflexivity|]; split; [reflexivity|];
       split; [reflexivity|]; split; [reflexivity|];
       intros _;
       split; [split; [first [discriminate | eauto]
                      | first [reflexivity | intros [? ?]; discriminate]]|];
       split; [first [reflexivity | discriminate] | first [reflexivity | discriminate]]).
Qed.

(** X13.  Registration never raises and saves nothing for a form with
    errors.  [register_user] returns a pair in which exactly one of the
    user and the message is set.  When the validation of the form finds
    errors, the message is their texts joined by spaces and [save] is not
    run: the world is as the validation left it.  A form that was given no
    data is refused with an empty message.  A user is returned only when
    the validation found nothing and [save] returned that user. *)
Theorem register_user_total form w :
  ∃ r w',
    register_user form w = (Return r, w')
    ∧ (r.1 = None ↔ r.2 ≠ None)
    ∧ (∀ errors w1, form_is_bound form = true →
         form_full_clean form w = (Return errors, w1) → errors ≠ [] →
         r = (None, Some (String.concat " " (flat_map snd errors))) ∧ w' = w1)
    ∧ (form_is_bound form = false → r = (None, Some "") ∧ w' = w)
    ∧ (∀ user, r.1 = Some user →
         ∃ w1 w2, form_full_clean form w = (Return [], w1)
                  ∧ form_save form w1 = (Return user, w2)
                  ∧ w' = add_log INFO ("Usuario registrado: " +:+ u_username user) w2)
    ∧ (∀ e w1 w2, form_is_bound form = true →
         form_full_clean form w = (Return [], w1) →
         form_save form w1 = (Raise e, w2) →
         r = (None, Some ("Error al registrar el usuario: " +:+ exn_msg e))).
Proof.
  unfold register_user, errors_of. unfold_monad.
  destruct (form_is_bound form) eqn:Hbound; cbn.
  - destruct (form_full_clean form w) as [[errors|e] w1] eqn:Hclean; cbn.
    + destruct errors as [|err errors]; cbn.
      * destruct (form_save form w1) as [[user|e] w2] eqn:Hsave; cbn;
          (do 2 eexists; split; [reflexivity|]; cbn;
           split; [split; [first [discriminate | intros _; congruence]
                          | first [reflexivity | congruence]]|];
           split; [intros errors' w1' _ [= <- <-] Hne; congruence|];
           split; [discriminate|]).
        -- split; [intros user' [= <-]; eauto|].
           intros e w1' w2' _ [= <-] Hsave'. congruence.
        -- split; [discriminate|].
           intros e' w1' w2' _ [= <-] Hsave'. congruence.
      * do 2 eexists. split; [reflexivity|]. cbn.
        split; [split; [discriminate | reflexivity]|].
        split; [intros errors' w1' _ [= <- <-] _; split; reflexivity|].
        split; [discriminate|]. split; [discriminate|]. intros e w1' w2' _ [=].
    + do 2 eexists. split; [reflexivity|]. cbn.
      split; [split; [discriminate | reflexivity]|].
      split; [intros errors' w1' _ [=]|].
      split; [discriminate|]. split; [discriminate|]. intros e' w1' w2' _ [=].
  - do 2 eexists. split; [reflexivity|]. cbn.
    split; [split; [discriminate | reflexivity]|].
    split; [discriminate|]. split; [intros _; split; reflexivity|].
    split; discriminate.
Qed.

End Authentication.

(** ** The history service *)

Section History.

Import HistorialService.

Local Arguments new_historial : simpl never.

(** C4.  Creation is one atomic unit with validation before the write.
    Whatever the input and whatever fails underneath: when it returns, the
    row it returns passed the field validation and is the one row added to
    the table, under a fresh key; when it raises, the database is exactly
    as before (nothing is committed, even when the failure comes after the
    row was written), and the exception raised is the failure itself.  A
    row that fails the validation raises [ValidationError] before any call
    to the database.  The file storage is never touched. *)
Theorem create_historial_atomic E user imagen_obj paciente_nombre grupo porcentaje w :
  ∃ r w' evs,
    create_historial_from_image E user imagen_obj paciente_nombre grupo porcentaje w = (r, w')
    ∧ trace w' = (trace w ++ evs)%list
    ∧ storage w' = storage w
    ∧ match r with
      | Return (pk, h) =>
          h = new_historial user imagen_obj paciente_nombre grupo porcentaje
          ∧ historial_field_errors E h = []
          ∧ pk = next_pk (db w)
          ∧ historial_tbl (db w') = <[pk := h]> (historial_tbl (db w))
          ∧ imagen_tbl (db w') = imagen_tbl (db w)
      | Raise e => db w' = db w
      end
    ∧ (∀ o e, In (Failed o e) evs → r = Raise e)
    ∧ (historial_field_errors E
         (new_historial user imagen_obj paciente_nombre grupo porcentaje) ≠ [] →
       evs = [] ∧ ∃ msg, r = Raise (Exn ValidationError msg)).
Proof.
  unfold create_historial_from_image.
  fold (new_historial user imagen_obj paciente_nombre grupo porcentaje).
  set (h := new_historial user imagen_obj paciente_nombre grupo porcentaje).
  unfold atomic, full_clean, historial_save, perform. unfold_monad. cbn.
  destruct (historial_field_errors E h) as [|err errs] eqn:Herr; cbn.
  - repeat (next_fault; cbn);
      (do 3 eexists; split; [reflexivity|]; cbn;
       split; [rewrite <- ?app_assoc; reflexivity|];
       split; [reflexivity|];
       split; [first [reflexivity | auto]|];
       split; [intros o e' Hin; in_events Hin | intros Hne; congruence]).
  - exists (Raise (Exn ValidationError (String.concat "; " (err :: errs)))).
    eexists. exists []. cbn. split; [reflexivity|].
    split; [symmetry; apply app_nil_r|].
    split; [reflexivity|]. split; [reflexivity|].
    split; [intros o e [] | intros _; split; [reflexivity | eauto]].
Qed.

(** Finding a failed call in an explicit list of events. *)
Ltac find_failed := cbn; first [left; reflexivity | right; find_failed].

(** C2.  Deletion with an owner filter looks the record up by key and
    owner.  When the table can be read and no row has that key with that
    owner (the key is unknown, or its row belongs to someone else) the
    result is [false]: nothing is raised, nothing else is called and
    nothing changes.  When the row is there with that owner and no call
    fails, the record is deleted and the result is [true]: the row is gone
    from the table, its file is gone from the storage, and the calls are,
    in this order, the lookup, the removal of the file with the save of
    the cleared field (for a row that has a file), and the deletion of the
    row.  In every run the file is deleted from the storage before the
    row is deleted, and a [true] result means the row is gone.  A failure
    of any call other than a record-not-found is raised to the caller as
    it is, with the database restored; the exception raised is never a
    record-not-found. *)
Theorem delete_historial_owner_filter E pk user w :
  ∃ r w' evs,
    delete_historial E pk (Some user) w = (r, w')
    ∧ trace w' = (trace w ++ evs)%list
    ∧ (fault E (trace w) (DbSelect "Historial") = None →
       (∀ h, historial_tbl (db w) !! pk = Some h → h_user h ≠ u_id user) →
       r = Return false ∧ db w' = db w ∧ storage w' = storage w
       ∧ evs = [Did (DbSelect "Historial")])
    ∧ (∀ h i, historial_tbl (db w) !! pk = Some h → h_imagen h ≠ "" →
       evs !! i = Some (Did (DbDelete "Historial" pk)) →
       ∃ j, (j < i)%nat ∧ evs !! j = Some (Did (StorageDelete (h_imagen h))))
    ∧ (r = Return true →
       ∃ h, historial_tbl (db w) !! pk = Some h ∧ h_user h = u_id user
            ∧ historial_tbl (db w') = delete pk (historial_tbl (db w))
            ∧ storage w' = (if String.eqb (h_imagen h) "" then storage w
                            else delete (h_imagen h) (storage w)))
    ∧ (∀ o e, In (Failed o e) evs → isinstance e (DoesNotExist "Historial") = false →
       r = Raise e ∧ db w' = db w)
    ∧ (∀ e, r = Raise e → isinstance e (DoesNotExist "Historial") = false)
    ∧ ((∀ o e, ¬ In (Failed o e) evs) →
       ∀ h, historial_tbl (db w) !! pk = Some h → h_user h = u_id user →
       r = Return true
       ∧ historial_tbl (db w') = delete pk (historial_tbl (db w))
       ∧ storage w' = (if String.eqb (h_imagen h) "" then storage w
                       else delete (h_imagen h) (storage w))
       ∧ evs = (Did (DbSelect "Historial")
                :: (if String.eqb (h_imagen h) "" then []
                    else [Did (StorageDelete (h_imagen h)); Did (DbUpdate "Historial" pk);
                          Did (Signal "post_save" "Historial")])
                ++ [Did (DbDelete "Historial" pk); Did (Signal "post_delete" "Historial")])%list).
Proof.
  unfold delete_historial, atomic, historial_get, fieldfile_delete, storage_delete,
    historial_delete, perform.
  unfold_monad. cbn -[pretty].
  repeat (step_run; cbn -[pretty]);
    (do 3 eexists; split; [reflexivity|]; cbn -[pretty];
     split; [rewrite <- ?app_assoc; reflexivity|];
     split; [first [ intros Hf Hno; first [congruence | exfalso; eapply Hno; eauto; fail]
                   | intros _ _; repeat split; reflexivity ]|];
     split; [intros h' i Hh' Hne Hi;
             first [ congruence
                   | do 8 (try (destruct i as [|i]; cbn in Hi; [discriminate|]));
                     first [ discriminate
                           | exists 1%nat; split; [lia|]; cbn; repeat f_equal; congruence ] ]|];
     split; [first [ discriminate
                   | intros _; eexists; split; [reflexivity|];
                     split; [assumption|];
                     split; [rewrite ?delete_insert_eq; reflexivity|];
                     match goal with
                     | |- context [String.eqb ?a ?b] => destruct (String.eqb_spec a b)
                     end; first [reflexivity | congruence] ]|];
     split; [intros o e' Hin Hcls; in_events Hin|];
     split; [intros e' He'; first [discriminate | congruence]|];
     intros Hnofail h' Hh' Hown;
     first [ exfalso; eapply Hnofail; find_failed
           | discriminate Hh'
           | injection Hh' as <-;
             first [ contradiction
                   | match goal with
                     | |- context [String.eqb ?a ?b] => destruct (String.eqb_spec a b)
                     end; try congruence;
                     split; [reflexivity|];
                     split; [rewrite ?delete_insert_eq; reflexivity|];
                     split; reflexivity ] ]).
Qed.

Lemma create_historial_atomic_witness :
  ∃ msg,
    (create_historial_from_image strict_env sample_user sample_imagen "Juan Pérez"
       "Predicción no encontrada" (PyFloat 0%float) history_world).1
    = Raise (Exn ValidationError msg)
    ∧ db (create_historial_from_image strict_env sample_user sample_imagen "Juan Pérez"
            "Predicción no encontrada" (PyFloat 0%float) history_world).2
      = db history_world.
Proof.
  destruct (create_historial_atomic strict_env sample_user sample_imagen "Juan Pérez"
              "Predicción no encontrada" (PyFloat 0%float) history_world)
    as (r & w' & evs & Hrun & _ & _ & Hcases & _ & Hinvalid).
  destruct Hinvalid as [_ [msg Hr]]; [vm_compute; discriminate|].
  exists msg. rewrite Hrun. subst r. split; [reflexivity | exact Hcases].
Defined.

(** A creation that succeeds, and one whose failure comes after the row
    was written: the row is not in the table afterwards. *)
Example create_historial_values :
  (let '(r, w') := create_historial_from_image quiet_env other_user sample_imagen
                     "Juan Pérez" "Hernia" (PyFloat 87%float) history_world in
   (fst <$> match r with Return a => Some a | Raise _ => None end) = Some 8
   ∧ (h_grupo <$> historial_tbl (db w') !! 8) = Some "Hernia")
  ∧ (let '(r, w') := create_historial_from_image late_failure_env other_user sample_imagen
                       "Juan Pérez" "Hernia" (PyFloat 87%float) history_world in
     r = Raise (Exn ValueError "receiver failed")
     ∧ historial_tbl (db w') !! 8 = None
     ∧ trace w' = [Did (DbInsert "Historial");
                   Failed (Signal "post_save" "Historial") (Exn ValueError "receiver failed")]).
Proof. vm_compute. repeat split. Qed.

Lemma delete_historial_owner_filter_witness :
  (delete_historial quiet_env 7 (Some sample_user) history_world).1 = Return false
  ∧ (delete_historial quiet_env 9 (Some sample_user) history_world).1 = Return false
  ∧ (delete_historial quiet_env 7 (Some other_user) history_world).1 = Return true
  ∧ historial_tbl (db (delete_historial quiet_env 7 (Some other_user) history_world).2) !! 7
    = None
  ∧ storage (delete_historial quiet_env 7 (Some other_user) history_world).2 !! stored_xray
    = None.
Proof.
  split; [|split].
  - destruct (delete_historial_owner_filter quiet_env 7 sample_user history_world)
      as (r & w' & evs & Hrun & _ & Hnot & _).
    rewrite Hrun. apply Hnot; [reflexivity|].
    intros h Hrow. vm_compute in Hrow. injection Hrow as <-. discriminate.
  - destruct (delete_historial_owner_filter quiet_env 9 sample_user history_world)
      as (r & w' & evs & Hrun & _ & Hnot & _).
    rewrite Hrun. apply Hnot; [reflexivity|].
    intros h Hrow. vm_compute in Hrow. discriminate.
  - destruct (delete_historial_owner_filter quiet_env 7 other_user history_world)
      as (r & w' & evs & Hrun & Htr & _ & _ & _ & _ & _ & Hdeleted).
    rewrite Hrun. cbn [fst snd].
    destruct (Hdeleted) with (h := sample_historial) as (-> & Htbl & Hst & _).
    + intros o e Hin.
      assert (Hevs : evs = trace (delete_historial quiet_env 7 (Some other_user)
                                    history_world).2)
        by (rewrite Hrun; cbn [snd]; rewrite Htr; reflexivity).
      rewrite Hevs in Hin. vm_compute in Hin.
      repeat (destruct Hin as [Hin|Hin]; [discriminate Hin|]). destruct Hin.
    + reflexivity.
    + reflexivity.
    + split; [reflexivity|]. split.
      * rewrite Htbl. apply lookup_delete_eq.
      * rewrite Hst. apply lookup_delete_eq.
Defined.

(** The owner deletes the record: the file goes first, then the row.  When
    the row cannot be deleted the exception reaches the caller and the row
    is still there, without its file. *)
Example delete_historial_values :
  (let '(r, w') := delete_historial quiet_env 7 (Some other_user) history_world in
   r = Return true
   ∧ historial_tbl (db w') !! 7 = None
   ∧ storage w' !! stored_xray = None
   ∧ trace w' = [Did (DbSelect "Historial"); Did (StorageDelete stored_xray);
                 Did (DbUpdate "Historial" 7); Did (Signal "post_save" "Historial");
                 Did (DbDelete "Historial" 7); Did (Signal "post_delete" "Historial")])
  ∧ (let '(r, w') := delete_historial stuck_row_env 7 (Some other_user) history_world in
     r = Raise (Exn DatabaseError "database is locked")
     ∧ (h_imagen <$> historial_tbl (db w') !! 7) = Some stored_xray
     ∧ storage w' !! stored_xray = None).
Proof. vm_compute. repeat split. Qed.

(** Every run of the deletion, as its callers see it: what it returns
    tells what happened to the row. *)
Lemma delete_historial_run E pk user w :
  ∃ r w' evs,
    delete_historial E pk user w = (r, w')
    ∧ trace w' = (trace w ++ evs)%list
    ∧ flash w' = flash w
    ∧ imagen_tbl (db w') = imagen_tbl (db w)
    ∧ user_tbl (db w') = user_tbl (db w)
    ∧ (r = Return true →
       ∃ h, historial_tbl (db w) !! pk = Some h
            ∧ match user with Some u => h_user h = u_id u | None => True end
            ∧ historial_tbl (db w') = delete pk (historial_tbl (db w))
            ∧ storage w' = (if String.eqb (h_imagen h) "" then storage w
                            else delete (h_imagen h) (storage w)))
    ∧ (∀ e, r = Raise e → db w' = db w)
    ∧ ((∀ h, historial_tbl (db w) !! pk = Some h →
          match user with Some u => h_user h ≠ u_id u | None => False end) →
       r ≠ Return true ∧ db w' = db w ∧ storage w' = storage w
       ∧ Forall (λ ev, op_of ev = DbSelect "Historial") evs).
Proof.
  unfold delete_historial, atomic, historial_get, fieldfile_delete, storage_delete,
    historial_delete, perform.
  unfold_monad. cbn -[pretty].
  destruct user as [user|];
  repeat (step_run; cbn -[pretty]);
    (do 3 eexists; split; [reflexivity|]; cbn -[pretty];
     split; [rewrite <- ?app_assoc; reflexivity|];
     split; [reflexivity|]; split; [reflexivity|]; split; [reflexivity|];
     split; [first [ discriminate
                   | intros _; eexists; split; [reflexivity|];
                     split; [first [assumption | exact I]|];
                     split; [rewrite ?delete_insert_eq; reflexivity|];
                     match goal with
                     | |- context [String.eqb ?a ?b] => destruct (String.eqb_spec a b)
                     end; first [reflexivity | congruence] ]|];
     split; [intros e' He'; first [discriminate He' | reflexivity]|];
     intros Hno;
     first [ exfalso; eapply Hno; eauto; fail
           | split; [discriminate|]; split; [reflexivity|]; split; [reflexivity|];
             repeat constructor ]).
Qed.

(** The deletion of a row that is there, when nothing fails. *)
Lemma delete_historial_quiet E pk user w h :
  (∀ t o, fault E t o = None) →
  historial_tbl (db w) !! pk = Some h →
  match user with Some u => h_user h = u_id u | None => True end →
  ∃ w',
    delete_historial E pk user w = (Return true, w')
    ∧ historial_tbl (db w') = delete pk (historial_tbl (db w))
    ∧ imagen_tbl (db w') = imagen_tbl (db w)
    ∧ storage w' = (if String.eqb (h_imagen h) "" then storage w
                    else delete (h_imagen h) (storage w))
    ∧ flash w' = flash w
    ∧ trace w' = (trace w ++ Did (DbSelect "Historial")
                  :: (if String.eqb (h_imagen h) "" then []
                      else [Did (StorageDelete (h_imagen h)); Did (DbUpdate "Historial" pk);
                            Did (Signal "post_save" "Historial")])
                  ++ [Did (DbDelete "Historial" pk); Did (Signal "post_delete" "Historial")])%list.
Proof.
  intros Hquiet Hrow Howner.
  unfold delete_historial, atomic, historial_get, fieldfile_delete, storage_delete,
    historial_delete, perform.
  unfold_monad. cbn -[pretty]. rewrite !Hquiet. cbn -[pretty]. rewrite Hrow.
  assert (Hfound : match user with
                   | Some u => h_user h =? u_id u
                   | None => true
                   end = true)
    by (destruct user; [apply Z.eqb_eq; exact Howner | reflexivity]).
  destruct user as [u|]; cbn -[pretty]; rewrite ?Hfound; cbn -[pretty];
    (destruct (String.eqb_spec (h_imagen h) ""); cbn -[pretty];
     rewrite !Hquiet; cbn -[pretty]; rewrite ?Hquiet; cbn -[pretty];
     (eexists; split; [reflexivity|]; cbn;
      split; [rewrite ?delete_insert_eq; reflexivity|];
      split; [reflexivity|]; split; [reflexivity|]; split; [reflexivity|];
      rewrite <- ?app_assoc; reflexivity)).
Qed.

(** X14.  Without an owner filter the deletion takes the record whoever
    owns it.  When nothing fails and the table has a row under the key,
    [delete_historial] without a user returns [true]; the row is gone and
    so is its file, the other tables are untouched.  A row without a file
    is deleted without any call to the storage: the calls are the lookup,
    then, only for a row with a file, the removal of the file and the save
    of the cleared field, then the deletion of the row. *)
Theorem delete_historial_any_owner E pk w h :
  (∀ t o, fault E t o = None) →
  historial_tbl (db w) !! pk = Some h →
  ∃ w',
    delete_historial E pk None w = (Return true, w')
    ∧ historial_tbl (db w') = delete pk (historial_tbl (db w))
    ∧ imagen_tbl (db w') = imagen_tbl (db w)
    ∧ storage w' = (if String.eqb (h_imagen h) "" then storage w
                    else delete (h_imagen h) (storage w))
    ∧ trace w' = (trace w ++ Did (DbSelect "Historial")
                  :: (if String.eqb (h_imagen h) "" then []
                      else [Did (StorageDelete (h_imagen h)); Did (DbUpdate "Historial" pk);
                            Did (Signal "post_save" "Historial")])
                  ++ [Did (DbDelete "Historial" pk); Did (Signal "post_delete" "Historial")])%list.
Proof.
  intros Hquiet Hrow.
  destruct (delete_historial_quiet E pk None w h Hquiet Hrow I)
    as (w' & Hrun & Htbl & Himg & Hst & _ & Htr).
  exists w'. split; [exact Hrun|]. split; [exact Htbl|]. split; [exact Himg|].
  split; [exact Hst | exact Htr].
Qed.

Lemma delete_historial_any_owner_witness :
  historial_tbl (db (delete_historial quiet_env 7 None history_world).2) !! 7 = None.
Proof.
  destruct (delete_historial_any_owner quiet_env 7 history_world sample_historial)
    as (w' & Hrun & Htbl & _).
  - intros t o. reflexivity.
  - reflexivity.
  - rewrite Hrun. cbn [snd]. rewrite Htbl. apply lookup_delete_eq.
Defined.

(** X15.  A deletion that fails after the file was removed leaves a record
    without its file.  In every run that raises after the call that
    removes the file has succeeded, the database is exactly as before, so
    the record is still there and still names the file, while the file is
    gone from the storage: the storage is not part of the transaction. *)
Theorem delete_historial_failure_leaves_row E pk user w :
  ∃ r w' evs,
    delete_historial E pk user w = (r, w')
    ∧ trace w' = (trace w ++ evs)%list
    ∧ ∀ e name, r = Raise e → In (Did (StorageDelete name)) evs →
        db w' = db w
        ∧ storage w' = delete name (storage w)
        ∧ name ≠ ""
        ∧ ∃ h, historial_tbl (db w') !! pk = Some h ∧ h_imagen h = name.
Proof.
  unfold delete_historial, atomic, historial_get, fieldfile_delete, storage_delete,
    historial_delete, perform.
  unfold_monad. cbn -[pretty].
  destruct user as [user|];
  repeat (step_run; cbn -[pretty]);
    (do 3 eexists; split; [reflexivity|]; cbn -[pretty];
     split; [rewrite <- ?app_assoc; reflexivity|];
     intros e' name Hr Hin;
     first [ discriminate Hr
           | cbn in Hin;
             repeat (destruct Hin as [Hin|Hin];
                     [first [ discriminate Hin
                            | injection Hin as <-;
                              split; [reflexivity|]; split; [reflexivity|];
                              split; [assumption|];
                              eexists; split; [eassumption | reflexivity] ]|]);
             destruct Hin ]).
Qed.

End History.

(** ** The deletion views *)

Section Deleting.

Import HistorialService Views.

Local Arguments delete_historial : simpl never.

(** X16.  Nobody deletes a record of someone else through
    [eliminar_historial].  Whatever the request (any method, logged in or
    not) and whatever fails, if the record under the key does not belong
    to the user of the request (or there is no such record, or no user),
    the view returns a response, the database and the storage are exactly
    as before, and the only message it may add is an error. *)
Theorem eliminar_historial_own_records_only E request id w :
  (∀ u h, req_user request = Some u → historial_tbl (db w) !! id = Some h →
          h_user h ≠ u_id u) →
  ∃ resp w',
    eliminar_historial E request id w = (Return resp, w')
    ∧ db w' = db w ∧ storage w' = storage w
    ∧ (flash w' = flash w ∨ ∃ msg, flash w' = (flash w ++ [(ERROR, msg)])%list).
Proof.
  intros Hother. unfold eliminar_historial, login_required, require_http_methods.
  destruct (req_user request) as [user|];
    [|exists (Redirect "login"), w; repeat split; left; reflexivity].
  destruct (str_in (method request) ["POST"]);
    [|exists (HttpResponseNotAllowed ["POST"]), w; repeat split; left; reflexivity].
  destruct (delete_historial_run E id (Some user) w)
    as (r & w1 & evs & Hrun & _ & Hfl & _ & _ & _ & Hraise & Hno).
  destruct Hno as (Hnot & Hdb & Hst & _); [intros h Hrow; exact (Hother user h eq_refl Hrow)|].
  unfold_monad. rewrite Hrun.
  destruct r as [[|]|e]; cbn; [congruence| |];
    (do 2 eexists; split; [reflexivity|]; cbn;
     split; [exact Hdb|]; split; [exact Hst|]; right; rewrite Hfl; eauto).
Qed.

Lemma eliminar_historial_own_records_only_witness :
  db (eliminar_historial quiet_env (delete_request sample_user) 7 history_world).2
  = db history_world.
Proof.
  destruct (eliminar_historial_own_records_only quiet_env (delete_request sample_user) 7
              history_world) as (resp & w' & Hrun & Hdb & _).
  - intros u h [= <-] Hrow. vm_compute in Hrow. injection Hrow as <-. discriminate.
  - rewrite Hrun. exact Hdb.
Defined.

(** X17.  [eliminar_historial] always answers with the redirect and one
    message.  For a POST of a logged-in user the view never raises, even
    when the deletion does: it redirects to the history page and adds
    exactly one message.  The message of success is added only when the
    record was there, belonged to the user and has been deleted; with the
    message of failure "Error al eliminar el registro." the database is
    exactly as before. *)
Theorem eliminar_historial_answers E request id w user :
  req_user request = Some user →
  method request = "POST" →
  ∃ w' note,
    eliminar_historial E request id w = (Return (Redirect "historial_med"), w')
    ∧ flash w' = (flash w ++ [note])%list
    ∧ In note [(SUCCESS, "El registro ha sido eliminado correctamente.");
               (ERROR, "No se encontró el registro.");
               (ERROR, "Error al eliminar el registro.")]
    ∧ (note = (SUCCESS, "El registro ha sido eliminado correctamente.") →
       ∃ h, historial_tbl (db w) !! id = Some h ∧ h_user h = u_id user
            ∧ historial_tbl (db w') = delete id (historial_tbl (db w))
            ∧ storage w' = (if String.eqb (h_imagen h) "" then storage w
                            else delete (h_imagen h) (storage w)))
    ∧ (note = (ERROR, "Error al eliminar el registro.") → db w' = db w).
Proof.
  intros Huser Hmethod. unfold eliminar_historial, login_required, require_http_methods.
  rewrite Huser, Hmethod. cbn.
  destruct (delete_historial_run E id (Some user) w)
    as (r & w1 & evs & Hrun & _ & Hfl & _ & _ & Htrue & Hraise & _).
  unfold_monad. rewrite Hrun.
  destruct r as [[|]|e]; cbn;
    (do 2 eexists; split; [reflexivity|]; cbn;
     split; [rewrite Hfl; reflexivity|]; split; [tauto|]).
  - split; [intros _; exact (Htrue eq_refl) | discriminate].
  - split; discriminate.
  - split; [discriminate | intros _; exact (Hraise e eq_refl)].
Qed.

Lemma eliminar_historial_answers_witness :
  (eliminar_historial stuck_row_env (delete_request other_user) 7 history_world).1
  = Return (Redirect "historial_med").
Proof.
  destruct (eliminar_historial_answers stuck_row_env (delete_request other_user) 7
              history_world other_user) as (w' & note & Hrun & _).
  - reflexivity.
  - reflexivity.
  - rewrite Hrun. reflexivity.
Defined.

(** X18.  Only a superuser gets past the gate of
    [eliminar_historial_general].  For a request whose user is not a
    superuser (or that has no user), whatever its method, the view returns
    a response without making any call: the database, the storage, the
    record of calls and the log are as before.  A POST of such a user is
    answered by the redirect to the general history with the message
    "No tienes permiso para realizar esta acción.". *)
Theorem eliminar_historial_general_superuser_only E request id w :
  (∀ u, req_user request = Some u → u_is_superuser u = false) →
  ∃ resp w',
    eliminar_historial_general E request id w = (Return resp, w')
    ∧ db w' = db w ∧ storage w' = storage w ∧ trace w' = trace w ∧ log w' = log w
    ∧ (is_Some (req_user request) → method request = "POST" →
       resp = Redirect "historial_med_gene"
       ∧ flash w' = (flash w ++ [(ERROR, "No tienes permiso para realizar esta acción.")])%list).
Proof.
  intros Hplain. unfold eliminar_historial_general, login_required, require_http_methods.
  destruct (req_user request) as [user|] eqn:Huser.
  - rewrite (Hplain user eq_refl).
    destruct (str_in (method request) ["POST"]) eqn:Hpost; cbn.
    + do 2 eexists. split; [reflexivity|]. cbn.
      split; [reflexivity|]. split; [reflexivity|]. split; [reflexivity|].
      split; [reflexivity|]. intros _ _. split; reflexivity.
    + do 2 eexists. split; [reflexivity|].
      split; [reflexivity|]. split; [reflexivity|]. split; [reflexivity|].
      split; [reflexivity|].
      intros _ Hmethod. rewrite Hmethod in Hpost. discriminate Hpost.
  - exists (Redirect "login"), w.
    split; [reflexivity|]. split; [reflexivity|]. split; [reflexivity|].
    split; [reflexivity|]. split; [reflexivity|]. intros [? [=]].
Qed.

Lemma eliminar_historial_general_superuser_only_witness :
  (eliminar_historial_general quiet_env (delete_request other_user) 7 history_world).1
  = Return (Redirect "historial_med_gene")
  ∧ db (eliminar_historial_general quiet_env (delete_request other_user) 7 history_world).2
    = db history_world.
Proof.
  destruct (eliminar_historial_general_superuser_only quiet_env (delete_request other_user) 7
              history_world) as (resp & w' & Hrun & Hdb & _ & _ & _ & Hpost).
  - intros u [= <-]. reflexivity.
  - rewrite Hrun. split; [|exact Hdb].
    destruct Hpost as [-> _]; [eexists; reflexivity | reflexivity | reflexivity].
Defined.

(** X19.  A superuser deletes the record of any user.  When nothing fails,
    a POST of a superuser to [eliminar_historial_general] for a key that
    has a row deletes that row and its file whoever owns it, adds the
    message of success and redirects to the general history. *)
Theorem eliminar_historial_general_any_record E request id w user h :
  (∀ t o, fault E t o = None) →
  req_user request = Some user →
  u_is_superuser user = true →
  method request = "POST" →
  historial_tbl (db w) !! id = Some h →
  ∃ w',
    eliminar_historial_general E request id w = (Return (Redirect "historial_med_gene"), w')
    ∧ historial_tbl (db w') = delete id (historial_tbl (db w))
    ∧ storage w' = (if String.eqb (h_imagen h) "" then storage w
                    else delete (h_imagen h) (storage w))
    ∧ flash w' = (flash w ++ [(SUCCESS, "El registro ha sido eliminado correctamente.")])%list.
Proof.
  intros Hquiet Huser Hsuper Hmethod Hrow.
  unfold eliminar_historial_general, login_required, require_http_methods.
  rewrite Huser, Hmethod, Hsuper. cbn.
  destruct (delete_historial_quiet E id None w h Hquiet Hrow I)
    as (w1 & Hrun & Htbl & _ & Hst & Hfl & _).
  unfold_monad. rewrite Hrun. cbn.
  eexists. split; [reflexivity|]. cbn.
  split; [exact Htbl|]. split; [exact Hst|]. rewrite Hfl. reflexivity.
Qed.

Lemma eliminar_historial_general_any_record_witness :
  historial_tbl
    (db (eliminar_historial_general quiet_env (delete_request admin_user) 7 history_world).2)
  !! 7 = None.
Proof.
  destruct (eliminar_historial_general_any_record quiet_env (delete_request admin_user) 7
              history_world admin_user sample_historial) as (w' & Hrun & Htbl & _).
  - intros t o. reflexivity.
  - reflexivity.
  - reflexivity.
  - reflexivity.
  - reflexivity.
  - rewrite Hrun. cbn [snd]. rewrite Htbl. apply lookup_delete_eq.
Defined.

End Deleting.

(** ** The annotation renderer *)

Section Renderer.

Import ImageProcessingService.

Lemma for_each_cons {S A} (x : A) rest (body : A → M S unit) s :
  for_each (x :: rest) body s =
  match body x s with
  | (Return _, s') => for_each rest body s'
  | (Raise e, s') => (Raise e, s')
  end.
Proof. reflexivity. Qed.

(** The guarded turn of the loop always comes back. *)
Lemma draw_prediction_guarded_run E pred s :
  draw_prediction_guarded E pred s =
  match draw_prediction E pred s with
  | (Return _, s') => (Return (), s')
  | (Raise e, s') =>
      (Return (), (s'.1, add_log WARNING ("Error dibujando predicción: " +:+ exn_msg e) s'.2))
  end.
Proof.
  unfold draw_prediction_guarded, try_except.
  destruct (draw_prediction E pred s) as [[[]|e] [img1 w1]]; reflexivity.
Qed.

Lemma draw_loop_returns E preds s :
  ∃ s', for_each preds (draw_prediction_guarded E) s = (Return (), s').
Proof.
  revert s. induction preds as [|pred rest IH]; intros s.
  - exists s. reflexivity.
  - rewrite for_each_cons, draw_prediction_guarded_run.
    destruct (draw_prediction E pred s) as [[[]|e] s1]; apply IH.
Qed.

Lemma draw_prediction_no_points E pred s :
  p_points pred = None → draw_prediction E pred s = (Return (), s).
Proof. intros H. unfold draw_prediction. rewrite H. reflexivity. Qed.

(** A point without its [x] or [y] stops the body at the list
    comprehension, before anything is drawn. *)
Lemma coords_missing_key {S} (pts : list point) (s : S) :
  Exists (λ p, pt_x p = None ∨ pt_y p = None) pts →
  ∃ key, map_M (λ p : point, x ← getitem "x" (pt_x p); y ← getitem "y" (pt_y p); mret (x, y))
           pts s = (Raise (Exn KeyError key), s).
Proof.
  induction pts as [|p pts IH]; intros Hex.
  - inversion Hex.
  - cbn. unfold_monad.
    destruct (pt_x p) as [x|] eqn:Hx; [|eexists; reflexivity].
    destruct (pt_y p) as [y|] eqn:Hy; [|eexists; reflexivity].
    destruct IH as [key Hkey].
    + inversion Hex as [? ? [H|H]|]; subst; [congruence | congruence | assumption].
    + exists key. fold (@map_M S point). unfold mbind, M_bind in Hkey. 
      cbn in *. unfold_monad. rewrite Hkey. reflexivity.
Qed.

Lemma for_each_app {S A} (l1 l2 : list A) (body : A → M S unit) s :
  for_each (l1 ++ l2) body s =
  match for_each l1 body s with
  | (Return _, s') => for_each l2 body s'
  | (Raise e, s') => (Raise e, s')
  end.
Proof.
  revert s. induction l1 as [|x l1 IH]; intros s; [reflexivity|].
  change ((x :: l1) ++ l2)%list with (x :: (l1 ++ l2))%list.
  rewrite !for_each_cons. destruct (body x s) as [[[]|e] s1]; [apply IH | reflexivity].
Qed.

Lemma coords_state {S} (pts : list point) (s : S) :
  (map_M (λ p : point, x ← getitem "x" (pt_x p); y ← getitem "y" (pt_y p); mret (x, y))
     pts s).2 = s.
Proof.
  induction pts as [|p pts IH]; [reflexivity|].
  cbn. unfold_monad. destruct (pt_x p); [|reflexivity]. destruct (pt_y p); [|reflexivity].
  cbn in *. unfold_monad.
  destruct (map_M _ pts s) as [[coords|e] s1]; cbn in *; congruence.
Qed.

Local Arguments py_min : simpl never.
Local Arguments format_2f : simpl never.
Local Arguments num_times_100 : simpl never.

(** The body of the loop only calls numpy and cv2, and leaves the database,
    the storage, the user messages and the log as they were. *)
Lemma draw_prediction_effects E pred s :
  ∃ r s' evs,
    draw_prediction E pred s = (r, s')
    ∧ db s'.2 = db s.2 ∧ storage s'.2 = storage s.2 ∧ flash s'.2 = flash s.2
    ∧ log s'.2 = log s.2
    ∧ trace s'.2 = (trace s.2 ++ evs)%list
    ∧ Forall (λ ev, drawing_op (op_of ev) = true) evs.
Proof.
  destruct s as [img w]. unfold draw_prediction.
  destruct (p_points pred) as [pts|];
    [|exists (Return ()), (img, w), []; cbn; rewrite app_nil_r; repeat split; constructor].
  unfold mbind at 1. unfold M_bind at 1.
  pose proof (coords_state pts (img, w)) as Hst.
  destruct (map_M _ pts (img, w)) as [[coords|e] s1]; cbn in Hst; subst s1;
    [|exists (Raise e), (img, w), []; cbn; rewrite app_nil_r; repeat split; constructor].
  unfold on_world, cv_into, on_world, perform. unfold_monad. cbn.
  repeat (first [ next_fault
                | match goal with
                  | |- context [np_array_int32 ?E ?c] => destruct (np_array_int32 E c)
                  | |- context [py_min ?l] => destruct (py_min l)
                  | |- context [format_2f ?c] => destruct (format_2f c)
                  end ]; cbn);
    (do 3 eexists; split; [reflexivity|]; cbn;
     split; [reflexivity|]; split; [reflexivity|]; split; [reflexivity|];
     split; [reflexivity|];
     split; [rewrite <- ?app_assoc; reflexivity | repeat constructor]).
Qed.

Lemma draw_loop_effects E preds s :
  ∃ s' evs,
    for_each preds (draw_prediction_guarded E) s = (Return (), s')
    ∧ db s'.2 = db s.2 ∧ storage s'.2 = storage s.2 ∧ flash s'.2 = flash s.2
    ∧ trace s'.2 = (trace s.2 ++ evs)%list
    ∧ Forall (λ ev, drawing_op (op_of ev) = true) evs.
Proof.
  revert s. induction preds as [|pred rest IH]; intros s.
  - exists s, []. rewrite app_nil_r. repeat split. constructor.
  - rewrite for_each_cons, draw_prediction_guarded_run.
    destruct (draw_prediction_effects E pred s)
      as (r & s1 & evs1 & Hrun & Hdb & Hst & Hfl & Hlog & Htr & Hall).
    rewrite Hrun.
    assert (Hnext : ∀ s2, db s2.2 = db s1.2 → storage s2.2 = storage s1.2 →
              flash s2.2 = flash s1.2 → trace s2.2 = trace s1.2 →
              ∃ s' evs,
                for_each rest (draw_prediction_guarded E) s2 = (Return (), s')
                ∧ db s'.2 = db s.2 ∧ storage s'.2 = storage s.2 ∧ flash s'.2 = flash s.2
                ∧ trace s'.2 = (trace s.2 ++ evs)%list
                ∧ Forall (λ ev, drawing_op (op_of ev) = true) evs).
    { intros s2 Hdb2 Hst2 Hfl2 Htr2.
      destruct (IH s2) as (s' & evs2 & Hrun2 & Hdb' & Hst' & Hfl' & Htr' & Hall').
      exists s', (evs1 ++ evs2)%list. rewrite Hrun2.
      split; [reflexivity|]. split; [congruence|]. split; [congruence|].
      split; [congruence|]. split.
      - rewrite Htr', Htr2, Htr. symmetry. apply app_assoc.
      - apply Forall_app; split; assumption. }
    destruct r as [[]|e]; apply Hnext; reflexivity.
Qed.

(** Every run of the renderer, with what it leaves behind. *)
Lemma draw_predictions_on_image_run E img preds w :
  ∃ img' w' evs,
    draw_predictions_on_image E img preds w = (Return img', w')
    ∧ db w' = db w ∧ storage w' = storage w ∧ flash w' = flash w
    ∧ trace w' = (trace w ++ evs)%list
    ∧ Forall (λ ev, drawing_op (op_of ev) = true) evs.
Proof.
  unfold draw_predictions_on_image, with_array.
  destruct (draw_loop_effects E preds (img, w))
    as ([img' w'] & evs & Hrun & Hdb & Hst & Hfl & Htr & Hall).
  rewrite Hrun. exists img', w', evs. repeat split; assumption.
Qed.

(** C6.  The renderer tolerates failures prediction by prediction.  It
    never raises: for every image, list of predictions and world it
    returns an image, and leaves the database and the storage alone.  A prediction without [points] changes nothing, the
    image and the log included.  Whatever a prediction does, the rest of
    the list is then processed from the state that prediction left: as it
    is when the body came back, and with one warning added to the log when
    the body raised (the exception is caught there).  A point that lacks
    [x] or [y] is such a failure, caught before anything is drawn.
    Processing a list in two parts is processing the first part and then
    the second. *)
Theorem draw_predictions_tolerant E img preds w :
  (∃ img' w', draw_predictions_on_image E img preds w = (Return img', w')
              ∧ db w' = db w ∧ storage w' = storage w)
  ∧ (∀ pred, p_points pred = None →
       draw_predictions_on_image E img (pred :: preds) w
       = draw_predictions_on_image E img preds w)
  ∧ (∀ pred, ∃ img1 w1,
       draw_predictions_on_image E img (pred :: preds) w
       = draw_predictions_on_image E img1 preds w1
       ∧ match draw_prediction E pred (img, w) with
         | (Return _, s1) => (img1, w1) = s1
         | (Raise e, s1) =>
             (img1, w1)
             = (s1.1, add_log WARNING ("Error dibujando predicción: " +:+ exn_msg e) s1.2)
         end)
  ∧ (∀ pred pts, p_points pred = Some pts →
       Exists (λ p, pt_x p = None ∨ pt_y p = None) pts →
       ∃ key, draw_predictions_on_image E img (pred :: preds) w
              = draw_predictions_on_image E img preds
                  (add_log WARNING ("Error dibujando predicción: " +:+ key) w))
  ∧ (∀ before,
       draw_predictions_on_image E img (before ++ preds) w
       = match draw_predictions_on_image E img before w with
         | (Return img1, w1) => draw_predictions_on_image E img1 preds w1
         | (Raise e, w1) => (Raise e, w1)
         end).
Proof.
  unfold draw_predictions_on_image, with_array.
  split; [|split; [|split; [|split]]].
  - destruct (draw_loop_effects E preds (img, w))
      as ([img' w'] & evs & Hrun & Hdb & Hst & _).
    rewrite Hrun. eauto.
  - intros pred Hnone.
    rewrite for_each_cons, draw_prediction_guarded_run, (draw_prediction_no_points _ _ _ Hnone).
    reflexivity.
  - intros pred. rewrite for_each_cons, draw_prediction_guarded_run.
    destruct (draw_prediction E pred (img, w)) as [[[]|e] [img1 w1]];
      eexists; eexists; split; reflexivity.
  - intros pred pts Hpts Hex.
    destruct (coords_missing_key pts (img, w) Hex) as [key Hkey].
    exists key. rewrite for_each_cons, draw_prediction_guarded_run.
    unfold draw_prediction. rewrite Hpts. unfold mbind at 1. unfold M_bind at 1.
    rewrite Hkey. reflexivity.
  - intros before. rewrite for_each_app.
    destruct (draw_loop_returns E before (img, w)) as [[img1 w1] Hrun].
    rewrite Hrun. reflexivity.
Qed.

Example draw_predictions_example :
  (draw_predictions_on_image quiet_env sample_image
     (broken_prediction :: default [] (r_predictions sample_result)) empty_world).1
  = Return
      (PutText
         (Polylines
            (AddWeighted
               (FillPoly sample_image [(10, 40); (90, 35); (50, 120)] (0, 0, 255))
               0.4%float sample_image (1 - 0.4)%float 0%float)
            [(10, 40); (90, 35); (50, 120)] true (255, 0, 0) 2)
         "Hernia 87.00%" (10, 25) "FONT_HERSHEY_SIMPLEX" 0.5%float (255, 0, 0) 2).
Proof. vm_compute. reflexivity. Qed.

Lemma draw_predictions_tolerant_witness :
  ∃ key,
    draw_predictions_on_image quiet_env sample_image
      (broken_prediction :: default [] (r_predictions sample_result)) empty_world
    = draw_predictions_on_image quiet_env sample_image
        (default [] (r_predictions sample_result))
        (add_log WARNING ("Error dibujando predicción: " +:+ key) empty_world).
Proof.
  destruct (draw_predictions_tolerant quiet_env sample_image
              (default [] (r_predictions sample_result)) empty_world)
    as (_ & _ & _ & Hmissing & _).
  apply (Hmissing broken_prediction [ {| pt_x := Some (PyInt 3); pt_y := None |} ]).
  - reflexivity.
  - constructor. right. reflexivity.
Defined.

(** A failure after the fill was blended in: the blend stays, the outline
    and the label are missing, and the run still returns. *)
Example draw_predictions_partial :
  (draw_predictions_on_image no_outline_env sample_image
     (default [] (r_predictions sample_result)) empty_world).1
  = Return
      (AddWeighted
         (FillPoly sample_image [(10, 40); (90, 35); (50, 120)] (0, 0, 255))
         0.4%float sample_image (1 - 0.4)%float 0%float).
Proof. vm_compute. reflexivity. Qed.

(** A confidence that is an integer beyond the range of the floats: the
    label cannot be formatted, the failure is caught like any other, and
    the fill and the outline stay. *)
Example draw_predictions_unformattable :
  let '(r, w') := draw_predictions_on_image quiet_env sample_image
                    [ {| p_class := Some "Hernia"; p_confidence := Some (PyInt (10 ^ 400));
                         p_points := Some [ {| pt_x := Some (PyInt 10); pt_y := Some (PyInt 40) |};
                                            {| pt_x := Some (PyInt 90); pt_y := Some (PyInt 35) |} ] |} ]
                    empty_world in
  r = Return
        (Polylines
           (AddWeighted (FillPoly sample_image [(10, 40); (90, 35)] (0, 0, 255))
              0.4%float sample_image (1 - 0.4)%float 0%float)
           [(10, 40); (90, 35)] true (255, 0, 0) 2)
  ∧ log w' = [(WARNING, "Error dibujando predicción: int too large to convert to float")].
Proof. vm_compute. split; reflexivity. Qed.

End Renderer.

(** ** The upload view *)

Section Upload.

Import ImageProcessingService Views.

Local Arguments generate_encrypted_filename : simpl never.
Local Arguments ImageValidator.validate_image : simpl never.
Local Arguments draw_predictions_on_image : simpl never.
Local Arguments extract_prediction_data : simpl never.
Local Arguments pretty : simpl never.
Local Arguments str_in : simpl never.
Local Arguments String.eqb : simpl never.
Local Arguments isinstance : simpl never.
Local Arguments upload_page : simpl never.

Lemma for_each_messages (errors : list string) w :
  ∃ msgs, for_each errors (λ error, modify (add_flash ERROR error)) w
          = (Return (), World (db w) (storage w) (clock w) (log w) (flash w ++ msgs) (trace w)).
Proof.
  revert w. induction errors as [|err errors IH]; intros w.
  - exists []. rewrite app_nil_r. destruct w; reflexivity.
  - destruct (IH (add_flash ERROR err w)) as [msgs Hrun].
    exists ((ERROR, err) :: msgs). rewrite for_each_cons.
    change (modify (add_flash ERROR err) w) with (Return (), add_flash ERROR err w).
    cbv beta iota. rewrite Hrun. cbn. rewrite <- app_assoc. reflexivity.
Qed.

Lemma decoding_not_historial evs :
  Forall (λ ev, decoding_op (op_of ev) = true) evs →
  Forall (λ ev, historial_write (op_of ev) = false) evs.
Proof.
  intros Hall. eapply Forall_impl; [exact Hall|].
  intros [o|o e]; destruct o; cbn; congruence.
Qed.

(** Finding an event in a list of events given by appends and conses. *)
Ltac find_in :=
  cbn;
  first [ left; reflexivity
        | right; find_in
        | apply in_or_app; right; find_in ].

(** Case analysis on the membership [H] of an event in such a list; in a
    part known only by a [Forall], the event must satisfy its predicate. *)
Ltac in_cases H tac :=
  cbn in H;
  lazymatch type of H with
  | In _ (_ ++ _)%list =>
      apply in_app_or in H; destruct H as [H|H]; [in_cases H tac | in_cases H tac]
  | _ ∨ _ => destruct H as [H|H]; [tac H | in_cases H tac]
  | False => destruct H
  | In _ ?l =>
      match goal with
      | HF : Forall _ l |- _ =>
          rewrite List.Forall_forall in HF; apply HF in H; cbn in H; discriminate H
      end
  end.

Ltac failed_infer H :=
  first [ discriminate H
        | injection H as ? ? ?; subst;
          split; [reflexivity|]; split; [reflexivity|]; split; [reflexivity|];
          eexists; split; [reflexivity|]; split; [reflexivity|]; split; reflexivity ].

Ltac no_historial_write :=
  repeat first [ apply Forall_app; split
               | apply List.Forall_cons
               | apply List.Forall_nil ];
  first [ reflexivity | apply decoding_not_historial; assumption ].

Ltac pipeline_step E :=
  first
    [ next_fault
    | match goal with
      | |- context [ImageValidator.validate_image E ?f ?w0] =>
          let Hrun := fresh "Hrun" in
          destruct (validate_image_run E f w0)
            as (? & ? & [? ? ? ? ? ?] & ? & Hrun & ? & ? & ? & ? & ? & ? & ? & ?);
          cbn in *; subst; rewrite Hrun; clear Hrun
      | |- context [draw_predictions_on_image E ?i ?l ?w0] =>
          let Hrun := fresh "Hrun" in
          destruct (draw_predictions_on_image_run E i l w0)
            as (? & [? ? ? ? ? ?] & ? & Hrun & ? & ? & ? & ? & ?);
          cbn in *; subst; rewrite Hrun; clear Hrun
      | |- context [for_each ?l (λ error, modify (add_flash ERROR error)) ?w0] =>
          let Hrun := fresh "Hrun" in
          destruct (for_each_messages l w0) as [? Hrun]; rewrite Hrun; clear Hrun
      | |- context [req_user ?r] => destruct (req_user r)
      | |- context [str_in ?a ?b] => destruct (str_in a b)
      | |- context [String.eqb ?a ?b] => destruct (String.eqb a b) eqn:?
      | |- context [imagen_form_errors E ?r] => destruct (imagen_form_errors E r) eqn:?
      | |- context [FILES_imagen ?r] => destruct (FILES_imagen r)
      | |- context [isinstance ?e ?c] => destruct (isinstance e c) eqn:?
      | |- context [http_response E ?u] => destruct (http_response E u) as [? ?]
      | |- context [(400 <=? ?z) && (?z <? 600)] => destruct ((400 <=? z) && (z <? 600))
      | |- context [pil_identify E ?c] => destruct (pil_identify E c)
      | |- context [ROBOFLOW_API_KEY E] => destruct (ROBOFLOW_API_KEY E) as [[|? ?]|]
      | |- context [extract_prediction_data ?r] => destruct (extract_prediction_data r) as [? ?]
      | |- context [historial_field_errors E ?h] => destruct (historial_field_errors E h)
      | |- context [negb ?b] => is_var b; destruct b
      end ].

Lemma subir_imagen_run E request w :
  ∃ resp w' evs,
    subir_imagen E request w = (Return resp, w')
    ∧ trace w' = (trace w ++ evs)%list
    ∧ ((∀ url model, ¬ In (Did (Infer url model)) evs) →
       historial_tbl (db w') = historial_tbl (db w)
       ∧ Forall (λ ev, historial_write (op_of ev) = false) evs
       ∧ (∀ ctx, resp ≠ Render "imagen/resultados.html" ctx))
    ∧ (∀ url model e, In (Failed (Infer url model) e) evs →
       resp = upload_page E request
       ∧ flash w' = (flash w ++ [(ERROR, "Error al procesar la imagen con el modelo.")])%list
       ∧ historial_tbl (db w') = historial_tbl (db w)
       ∧ ∃ f, FILES_imagen request = Some f
              ∧ storage w'
                = <[storage_available_name E (storage w)
                      (generate_encrypted_filename (f_name f)) := f_content f]> (storage w)
              ∧ url = storage_url E (storage_available_name E (storage w)
                                       (generate_encrypted_filename (f_name f)))
              ∧ model = "proy_2/1").
Proof.
  unfold subir_imagen, login_required, require_http_methods.
  unfold download_image, get_inference_result, get_inference_client, save_processed_image,
    imagen_save, imagen_fieldfile_save, storage_save, pil_open,
    HistorialService.create_historial_from_image, full_clean, historial_save, atomic, perform.
  unfold_monad. cbn.
  repeat (pipeline_step E; cbn);
    (do 3 eexists; split; [reflexivity|]; cbn;
     split; [first [rewrite <- ?app_assoc; reflexivity | symmetry; apply app_nil_r]|];
     split;
     [ intros Hno;
       first [ exfalso; eapply Hno; find_in; fail
             | split; [reflexivity|]; split; [no_historial_write | intros ctx; discriminate] ]
     | intros url model e' Hin; in_cases Hin failed_infer ]).
Qed.

(** C5 (amended).  Every run of the upload view returns a page, and a run
    in which no inference call succeeds (the key is missing, the call
    fails, or the run stops before it) creates no history record: the
    table of history records is as before, no call of the run writes to
    it, and the page is not the result page.  When the inference call
    itself fails, the answer is the upload page with the message "Error al
    procesar la imagen con el modelo."; the uploaded bytes have been
    written, and stay, under the name the storage gave for the hashed file
    name, which is the image the model was asked about.  No record created
    in the run names that file, but a record that named it before the run
    still does: the uploaded bytes are linked to no history record exactly
    when no record had that name already. *)
Theorem subir_imagen_inference_failure E request w :
  ∃ resp w' evs,
    subir_imagen E request w = (Return resp, w')
    ∧ trace w' = (trace w ++ evs)%list
    ∧ ((∀ url model, ¬ In (Did (Infer url model)) evs) →
       historial_tbl (db w') = historial_tbl (db w)
       ∧ Forall (λ ev, historial_write (op_of ev) = false) evs
       ∧ (∀ ctx, resp ≠ Render "imagen/resultados.html" ctx))
    ∧ (∀ url model e, In (Failed (Infer url model) e) evs →
       resp = upload_page E request
       ∧ flash w' = (flash w ++ [(ERROR, "Error al procesar la imagen con el modelo.")])%list
       ∧ historial_tbl (db w') = historial_tbl (db w)
       ∧ ∃ f name,
           FILES_imagen request = Some f
           ∧ name = storage_available_name E (storage w)
                      (generate_encrypted_filename (f_name f))
           ∧ storage w' = <[name := f_content f]> (storage w)
           ∧ url = storage_url E name
           ∧ ((∃ pk h, historial_tbl (db w') !! pk = Some h ∧ h_imagen h = name)
              ↔ (∃ pk h, historial_tbl (db w) !! pk = Some h ∧ h_imagen h = name))).
Proof.
  destruct (subir_imagen_run E request w) as (resp & w' & evs & Hrun & Htr & Hno & Hfail).
  exists resp, w', evs.
  split; [exact Hrun|]. split; [exact Htr|]. split; [exact Hno|].
  intros url model e Hin.
  destruct (Hfail url model e Hin) as (Hresp & Hflash & Htbl & f & Hfile & Hst & Hurl & _).
  split; [exact Hresp|]. split; [exact Hflash|]. split; [exact Htbl|].
  exists f, (storage_available_name E (storage w) (generate_encrypted_filename (f_name f))).
  split; [exact Hfile|]. split; [reflexivity|]. split; [exact Hst|]. split; [exact Hurl|].
  rewrite Htbl. reflexivity.
Qed.

(** The scenario of the specification: the service is unreachable. *)
Example subir_imagen_offline :
  let '(resp, w') := subir_imagen offline_env sample_request one_user_world in
  resp = Return (upload_page offline_env sample_request)
  ∧ historial_tbl (db w') = ∅
  ∧ storage w' !! stored_xray = Some "image bytes"
  ∧ i_imagen <$> imagen_tbl (db w') !! 1 = Some stored_xray
  ∧ flash w' = [(ERROR, "Error al procesar la imagen con el modelo.")].
Proof. vm_compute. repeat split. Qed.

(** The scenario of the specification: the service answers. *)
Example subir_imagen_online :
  let '(resp, w') := subir_imagen quiet_env sample_request one_user_world in
  resp = Return (Render "imagen/resultados.html"
                   (ResultContext "Hernia" (PyFloat 87%float)
                      ("/media/" +:+ stored_xray) ("/media/" +:+ stored_xray)
                      (DateTime 0 (-300)) "Juan Pérez"))
  ∧ (h_grupo <$> historial_tbl (db w') !! 2) = Some "Hernia"
  ∧ (h_imagen <$> historial_tbl (db w') !! 2) = Some stored_xray
  ∧ storage w' !! stored_xray = Some "jpeg bytes".
Proof. vm_compute. repeat split. Qed.

(** C5, counterexample.  The same file name uploaded twice, the second
    time with the inference service unreachable.  The first upload ends
    with history record 2, which names the stored file, and the annotated
    image in the storage.  In the second upload the inference call fails:
    the view answers with the upload page and creates no record, yet the
    bytes it has written are under the same name, in place of the
    annotated image, and record 2 names them: the file written for the
    image before annotation is linked to a history record. *)
Lemma failed_reupload_is_linked :
  generate_encrypted_filename "xray.jpg" = stored_xray
  ∧ (h_imagen <$> historial_tbl (db after_upload) !! 2) = Some stored_xray
  ∧ storage after_upload !! stored_xray = Some "jpeg bytes"
  ∧ (subir_imagen offline_env sample_request after_upload).1
    = Return (upload_page offline_env sample_request)
  ∧ In (Failed (Infer ("/media/" +:+ stored_xray) "proy_2/1")
          (Exn RequestException "Connection refused"))
       (trace (subir_imagen offline_env sample_request after_upload).2)
  ∧ historial_tbl (db (subir_imagen offline_env sample_request after_upload).2)
    = historial_tbl (db after_upload)
  ∧ storage (subir_imagen offline_env sample_request after_upload).2 !! stored_xray
    = Some "image bytes"
  ∧ (h_imagen <$> historial_tbl (db (subir_imagen offline_env sample_request after_upload).2)
                  !! 2)
    = Some stored_xray.
Proof.
  split; [vm_compute; reflexivity|]. split; [vm_compute; reflexivity|].
  split; [vm_compute; reflexivity|]. split; [vm_compute; reflexivity|].
  split; [vm_compute; tauto|]. split; [vm_compute; reflexivity|].
  split; vm_compute; reflexivity.
Qed.

(** X20.  Only a POST of a logged-in user does anything.  A request without
    a user, or with another method than POST, is answered without any
    call and leaves the world exactly as it was: without a user the answer
    is the redirect to the login page; with a user, a GET gets the empty
    form and any method other than GET and POST is refused. *)
Theorem subir_imagen_read_only E request w :
  req_user request = None ∨ method request ≠ "POST" →
  ∃ resp,
    subir_imagen E request w = (Return resp, w)
    ∧ (req_user request = None → resp = Redirect "login")
    ∧ (is_Some (req_user request) → method request = "GET" →
       resp = Render "imagen/subir_imagen.html" (FormContext []))
    ∧ (is_Some (req_user request) → method request ≠ "GET" →
       resp = HttpResponseNotAllowed ["GET"; "POST"]).
Proof.
  intros Hidle. unfold subir_imagen, login_required, require_http_methods.
  destruct (req_user request) as [user|].
  - destruct Hidle as [[=]|Hmethod].
    unfold str_in. cbn [existsb].
    destruct (String.eqb_spec (method request) "POST") as [Hpost|_]; [contradiction|].
    destruct (String.eqb_spec (method request) "GET") as [Hget|Hother]; cbn.
    + eexists. split; [reflexivity|]. split; [discriminate|].
      split; [reflexivity | intros _ Hne; contradiction].
    + eexists. split; [reflexivity|]. split; [discriminate|].
      split; [intros _ Hget; contradiction | reflexivity].
  - exists (Redirect "login"). split; [reflexivity|]. split; [reflexivity|].
    split; intros [? [=]].
Qed.

Lemma subir_imagen_read_only_witness :
  subir_imagen quiet_env
    {| method := "GET"; req_user := Some sample_user; POST := []; FILES_imagen := None |}
    history_world
  = (Return (Render "imagen/subir_imagen.html" (FormContext [])), history_world).
Proof.
  destruct (subir_imagen_read_only quiet_env
              {| method := "GET"; req_user := Some sample_user; POST := [];
                 FILES_imagen := None |} history_world) as (resp & Hrun & _ & Hget & _).
  - right. discriminate.
  - rewrite Hrun, Hget; [reflexivity | eexists; reflexivity | reflexivity].
Defined.

(** X21.  An upload that fails the validation is not stored.  For a POST of
    a logged-in user whose form is in order, when the validation rejects
    the file with a reason, the view answers with the upload page and
    that reason as an error message; the database and the storage are as
    before, and the only calls made are those of the validation. *)
Theorem subir_imagen_rejected_upload E request w user reason :
  req_user request = Some user →
  method request = "POST" →
  imagen_form_errors E request = [] →
  (ImageValidator.validate_image E (FILES_imagen request) w).1 = Return (false, Some reason) →
  ∃ w' evs,
    subir_imagen E request w = (Return (upload_page E request), w')
    ∧ db w' = db w ∧ storage w' = storage w
    ∧ flash w' = (flash w ++ [(ERROR, reason)])%list
    ∧ trace w' = (trace w ++ evs)%list
    ∧ Forall (λ ev, decoding_op (op_of ev) = true) evs.
Proof.
  intros Huser Hmethod Hform Hrejected.
  unfold subir_imagen, login_required, require_http_methods.
  rewrite Huser, Hmethod, Hform.
  change (str_in "POST" ["GET"; "POST"]) with true.
  change (String.eqb "POST" "POST") with true. cbv iota.
  destruct (validate_image_run E (FILES_imagen request) w)
    as (accepted & why & w1 & evs & Hrun & Hdb & Hst & Hfl & _ & Htr & Hall & _).
  rewrite Hrun in Hrejected. injection Hrejected as -> ->.
  unfold_monad. rewrite Hrun. cbn.
  exists (add_flash ERROR reason w1), evs.
  split; [reflexivity|]. cbn. split; [exact Hdb|]. split; [exact Hst|].
  split; [rewrite Hfl; reflexivity|]. split; [exact Htr | exact Hall].
Qed.

Lemma subir_imagen_rejected_upload_witness :
  ∃ w',
    subir_imagen (env_with_size (99, 500)) sample_request one_user_world
    = (Return (upload_page (env_with_size (99, 500)) sample_request), w')
    ∧ storage w' = ∅.
Proof.
  destruct (subir_imagen_rejected_upload (env_with_size (99, 500)) sample_request
              one_user_world sample_user "Dimensiones inválidas (100-10000px)")
    as (w' & evs & Hrun & _ & Hst & _).
  - reflexivity.
  - reflexivity.
  - reflexivity.
  - vm_compute. reflexivity.
  - exists w'. split; [exact Hrun | exact Hst].
Defined.

(** Case analysis on the membership [H] of a failed call [o] that is a
    saving call ([Hw]) in the events of a run. *)
Ltac in_saving H Hw o :=
  cbn in H;
  lazymatch type of H with
  | In _ (_ ++ _)%list =>
      apply in_app_or in H; destruct H as [H|H]; [in_saving H Hw o | in_saving H Hw o]
  | _ ∨ _ =>
      destruct H as [H|H];
      [ first [ discriminate H
              | injection H as ? ?; subst;
                first [ discriminate Hw | split; [reflexivity|]; split; reflexivity ] ]
      | in_saving H Hw o ]
  | False => destruct H
  | In _ ?l =>
      match goal with
      | HF : Forall _ l |- _ =>
          rewrite List.Forall_forall in HF; apply HF in H; cbn in H;
          exfalso; clear - H Hw; destruct o; discriminate
      end
  end.

(** The leaf of a run that rendered the result page. *)
Ltac result_page Hctx :=
  injection Hctx as <-;
  do 4 eexists;
  split; [reflexivity|];
  split; [find_in|];
  split; [reflexivity|];
  split; [reflexivity|];
  split; [cbn; symmetry; eassumption|];
  split; [reflexivity|];
  split; [eassumption|];
  split; [cbn; rewrite lookup_insert_eq; eexists; reflexivity|];
  split; [eexists; reflexivity|];
  reflexivity.

Ltac outcome_step E :=
  first
    [ match goal with
      | |- context [extract_prediction_data ?r] =>
          destruct (extract_prediction_data r) as [? ?] eqn:?
      | |- context [historial_field_errors E ?h] =>
          destruct (historial_field_errors E h) eqn:?
      end
    | pipeline_step E ].

(** Every run of the upload view, with what it did to the records. *)
Lemma subir_imagen_outcome E request w :
  ∃ resp w' evs,
    subir_imagen E request w = (Return resp, w')
    ∧ trace w' = (trace w ++ evs)%list
    ∧ (∀ ctx, resp = Render "imagen/resultados.html" ctx →
         ∃ user url pk h,
           req_user request = Some user
           ∧ In (Did (Infer url "proy_2/1")) evs
           ∧ historial_tbl (db w') = <[pk := h]> (historial_tbl (db w))
           ∧ h_user h = u_id user
           ∧ (h_grupo h, h_porcentaje h) = extract_prediction_data (infer_response E url)
           ∧ h_paciente_nombre h = imagen_form_paciente_nombre E request
           ∧ historial_field_errors E h = []
           ∧ is_Some (storage w' !! h_imagen h)
           ∧ (∃ fecha, ctx = ResultContext (h_grupo h) (h_porcentaje h) url
                               (storage_url E (h_imagen h)) fecha (h_paciente_nombre h))
           ∧ flash w' = (flash w ++ [(SUCCESS, "Imagen procesada exitosamente.")])%list)
    ∧ ((∀ ctx, resp ≠ Render "imagen/resultados.html" ctx) →
       historial_tbl (db w') = historial_tbl (db w))
    ∧ (∀ o e, In (Failed o e) evs → saving_op o = true →
         resp = upload_page E request
         ∧ db w' = db w
         ∧ flash w' = (flash w ++ [(ERROR, "Error al procesar la imagen. Intenta nuevamente.")])%list).
Proof.
  unfold subir_imagen, login_required, require_http_methods.
  unfold download_image, get_inference_result, get_inference_client, save_processed_image,
    imagen_save, imagen_fieldfile_save, storage_save, pil_open,
    HistorialService.create_historial_from_image, full_clean, historial_save, atomic, perform.
  unfold_monad. cbn.
  repeat (outcome_step E; cbn);
    (do 3 eexists; split; [reflexivity|]; cbn;
     split; [first [rewrite <- ?app_assoc; reflexivity | symmetry; apply app_nil_r]|];
     split; [intros ctx Hctx; first [discriminate Hctx | result_page Hctx]|];
     split; [intros Hno; first [reflexivity | exfalso; eapply Hno; reflexivity]|];
     intros o e' Hin Hw; in_saving Hin Hw o).
Qed.


(** X23.  A failed write undoes the whole upload in the database.  In every
    run of the upload view in which a call that stores a file, writes a
    row, runs the signal of a write, or encodes the annotated image fails,
    the view still answers: with the upload page and the message "Error
    al procesar la imagen. Intenta nuevamente.", and with the database
    exactly as before the request, the image row written earlier in the
    run included. *)
Theorem subir_imagen_failed_write_rolls_back E request w :
  ∃ resp w' evs,
    subir_imagen E request w = (Return resp, w')
    ∧ trace w' = (trace w ++ evs)%list
    ∧ ∀ o e, In (Failed o e) evs → saving_op o = true →
        resp = upload_page E request
        ∧ db w' = db w
        ∧ flash w' = (flash w ++ [(ERROR, "Error al procesar la imagen. Intenta nuevamente.")])%list.
Proof.
  destruct (subir_imagen_outcome E request w)
    as (resp & w' & evs & Hrun & Htr & _ & _ & Hfailed).
  exists resp, w', evs.
  split; [exact Hrun|]. split; [exact Htr | exact Hfailed].
Qed.

(** The signal after the history record was written fails: the image row
    and the history record are both undone, the two files written to the
    storage stay. *)
Example subir_imagen_late_failure :
  let '(resp, w') := subir_imagen (env_with (λ t o, match o with
                                                    | Signal _ "Historial" =>
                                                        Some (Exn ValueError "receiver failed")
                                                    | _ => None
                                                    end) (λ _, []))
                       sample_request one_user_world in
  resp = Return (upload_page quiet_env sample_request)
  ∧ db w' = db one_user_world
  ∧ storage w' !! stored_xray = Some "jpeg bytes".
Proof. vm_compute. repeat split. Qed.

End Upload.

(** ** Page numbers *)

Section Paging.

Lemma py_range_In start stop p : In p (py_range start stop) ↔ start ≤ p < stop.
Proof.
  unfold py_range. rewrite in_map_iff. split.
  - intros (i & <- & Hi). apply in_seq in Hi. lia.
  - intros Hp. exists (Z.to_nat (p - start)). split; [lia|]. apply in_seq. lia.
Qed.

Lemma py_range_length start stop : length (py_range start stop) = Z.to_nat (stop - start).
Proof. unfold py_range. rewrite length_map, length_seq. reflexivity. Qed.

(** The window is a run of consecutive pages of the full width (or of all
    the pages, when there are fewer) that holds the current page. *)
Lemma get_page_range_shape paginator page_obj range_size :
  1 ≤ page_number page_obj ≤ num_pages paginator →
  1 ≤ range_size →
  ∃ first,
    Utils.get_page_range paginator page_obj range_size
    = py_range first (first + Z.min range_size (num_pages paginator))
    ∧ 1 ≤ first ≤ page_number page_obj
    ∧ page_number page_obj < first + Z.min range_size (num_pages paginator)
    ∧ first + Z.min range_size (num_pages paginator) ≤ num_pages paginator + 1.
Proof.
  intros Hpage Hsize. unfold Utils.get_page_range.
  pose proof (Z.div_pos range_size 2 ltac:(lia) ltac:(lia)) as Hhalf0.
  assert (Hhalf : range_size / 2 < range_size) by (apply Z.div_lt; lia).
  set (cur := page_number page_obj) in *. set (total := num_pages paginator) in *.
  set (half := range_size / 2) in *.
  destruct (Z.ltb_spec (Z.min (total + 1) (Z.max 1 (cur - half) + range_size)
                        - Z.max 1 (cur - half)) range_size) as [Hshort|Hfull].
  - exists (Z.max 1 (Z.min (total + 1) (Z.max 1 (cur - half) + range_size) - range_size)).
    split; [f_equal; lia | lia].
  - exists (Z.max 1 (cur - half)). split; [f_equal; lia | lia].
Qed.

(** X24.  The window of page numbers.  For a current page between 1 and
    the number of pages and a width of at least 1, [get_page_range] gives
    consecutive page numbers (each one more than the one before), all
    between 1 and the number of pages, with the current page among them;
    there are as many as the width asks, or all the pages when there are
    fewer. *)
Theorem get_page_range_window paginator page_obj range_size :
  1 ≤ page_number page_obj ≤ num_pages paginator →
  1 ≤ range_size →
  In (page_number page_obj) (Utils.get_page_range paginator page_obj range_size)
  ∧ (∀ p, In p (Utils.get_page_range paginator page_obj range_size) →
          1 ≤ p ≤ num_pages paginator)
  ∧ length (Utils.get_page_range paginator page_obj range_size)
    = Z.to_nat (Z.min range_size (num_pages paginator))
  ∧ (∀ i p q, Utils.get_page_range paginator page_obj range_size !! i = Some p →
              Utils.get_page_range paginator page_obj range_size !! S i = Some q →
              q = p + 1).
Proof.
  intros Hpage Hsize.
  destruct (get_page_range_shape paginator page_obj range_size Hpage Hsize)
    as (first & -> & Hfirst & Hlast & Hend).
  split; [apply py_range_In; lia|].
  split; [intros p Hp; apply py_range_In in Hp; lia|].
  split; [rewrite py_range_length; f_equal; lia|].
  intros i p q Hp Hq. unfold py_range in Hp, Hq.
  rewrite list_lookup_fmap in Hp, Hq.
  destruct (seq 0 _ !! i) as [a|] eqn:Ha; [|discriminate].
  destruct (seq 0 _ !! S i) as [b|] eqn:Hb; [|discriminate].
  apply lookup_seq in Ha as [-> _]. apply lookup_seq in Hb as [-> _].
  cbn in Hp, Hq. injection Hp as <-. injection Hq as <-. lia.
Qed.

Lemma get_page_range_window_witness :
  Utils.get_page_range {| num_pages := 12 |} {| page_number := 11 |} 5 = [8; 9; 10; 11; 12]
  ∧ In 11 (Utils.get_page_range {| num_pages := 12 |} {| page_number := 11 |} 5).
Proof.
  split; [reflexivity|].
  apply (get_page_range_window {| num_pages := 12 |} {| page_number := 11 |} 5); cbn; lia.
Defined.

End Paging.

(** ** Email addresses *)

Section Emails.

Lemma append_nil_inv (a b : string) : a +:+ b = "" → a = "" ∧ b = "".
Proof. destruct a; [auto | discriminate]. Qed.

Lemma matches_seq_inv r1 r2 s :
  matches (ReSeq r1 r2) s → ∃ s1 s2, s = s1 +:+ s2 ∧ matches r1 s1 ∧ matches r2 s2.
Proof. inversion 1; subst; eauto. Qed.

Lemma matches_alt_inv r1 r2 s : matches (ReAlt r1 r2) s → matches r1 s ∨ matches r2 s.
Proof. inversion 1; subst; auto. Qed.

Lemma matches_set_inv ranges s :
  matches (ReSet ranges) s → ∃ c, s = String c "" ∧ in_set c ranges = true.
Proof. inversion 1; subst; eauto. Qed.

Lemma matches_empty_inv s : matches ReEmpty s → s = "".
Proof. inversion 1; reflexivity. Qed.

Lemma nullable_spec r : nullable r = true ↔ matches r "".
Proof.
  induction r as [| |ranges|r1 IH1 r2 IH2|r1 IH1 r2 IH2|r IH]; cbn.
  - split; [discriminate | inversion 1].
  - split; [constructor | reflexivity].
  - split; [discriminate | inversion 1].
  - rewrite andb_true_iff, IH1, IH2. split.
    + intros [H1 H2]. exact (matches_seq _ _ "" "" H1 H2).
    + intros H. apply matches_seq_inv in H as (s1 & s2 & Hs & H1 & H2).
      symmetry in Hs. apply append_nil_inv in Hs as [-> ->]. auto.
  - rewrite orb_true_iff, IH1, IH2. split.
    + intros [H|H]; [apply matches_alt_l | apply matches_alt_r]; exact H.
    + apply matches_alt_inv.
  - split; [constructor | reflexivity].
Qed.

(** A repetition that starts with [c] starts with a turn that does. *)
Lemma matches_star_head r s :
  matches (ReStar r) s → ∀ c rest, s = String c rest →
  ∃ s1 s2, rest = s1 +:+ s2 ∧ matches r (String c s1) ∧ matches (ReStar r) s2.
Proof.
  intros H. remember (ReStar r) as r' eqn:Hr.
  induction H as [| | | | | |r0 s1 s2 H1 _ H2 IH2]; try discriminate Hr.
  - intros c rest [=].
  - injection Hr as ->. intros c rest Heq.
    destruct s1 as [|c1 s1]; cbn in Heq.
    + exact (IH2 eq_refl c rest Heq).
    + injection Heq as -> <-. exists s1, s2. auto.
Qed.

Lemma deriv_spec c r s : matches (deriv c r) s ↔ matches r (String c s).
Proof.
  revert s. induction r as [| |ranges|r1 IH1 r2 IH2|r1 IH1 r2 IH2|r IH]; intros s; cbn.
  - split; inversion 1.
  - split; inversion 1.
  - destruct (in_set c ranges) eqn:Hin.
    + split.
      * intros H. apply matches_empty_inv in H as ->. constructor. exact Hin.
      * intros H. apply matches_set_inv in H as (c' & [= <- ->] & _). constructor.
    + split; [inversion 1|].
      intros H. apply matches_set_inv in H as (c' & [= <- ->] & Hin'). congruence.
  - assert (Hseq : matches (ReSeq (deriv c r1) r2) s →
                   matches (ReSeq r1 r2) (String c s)).
    { intros H. apply matches_seq_inv in H as (s1 & s2 & -> & H1 & H2).
      apply IH1 in H1. exact (matches_seq _ _ (String c s1) s2 H1 H2). }
    assert (Hback : matches (ReSeq r1 r2) (String c s) →
                    matches (ReSeq (deriv c r1) r2) s
                    ∨ (matches r1 "" ∧ matches r2 (String c s))).
    { intros H. apply matches_seq_inv in H as (s1 & s2 & Hs & H1 & H2).
      destruct s1 as [|c1 s1]; cbn in Hs.
      - right. rewrite Hs. auto.
      - injection Hs as -> ->. left. apply matches_seq; [apply IH1; exact H1 | exact H2]. }
    destruct (nullable r1) eqn:Hnull.
    + split.
      * intros H. apply matches_alt_inv in H as [H|H]; [auto|].
        apply nullable_spec in Hnull. apply IH2 in H.
        exact (matches_seq _ _ "" (String c s) Hnull H).
      * intros H. destruct (Hback H) as [H'|[_ H']];
          [apply matches_alt_l; exact H' | apply matches_alt_r, IH2; exact H'].
    + split; [exact Hseq|].
      intros H. destruct (Hback H) as [H'|[H' _]]; [exact H'|].
      apply nullable_spec in H'. congruence.
  - split; intros H; apply matches_alt_inv in H as [H|H];
      first [apply matches_alt_l, IH1; exact H | apply matches_alt_r, IH2; exact H].
  - split.
    + intros H. apply matches_seq_inv in H as (s1 & s2 & -> & H1 & H2).
      apply IH in H1. exact (matches_star_cons _ (String c s1) s2 H1 H2).
    + intros H. destruct (matches_star_head _ _ H c s eq_refl) as (s1 & s2 & -> & H1 & H2).
      apply matches_seq; [apply IH; exact H1 | exact H2].
Qed.

Lemma fullmatch_spec r s : fullmatch r s = true ↔ matches r s.
Proof.
  revert r. induction s as [|c s IH]; intros r; cbn.
  - apply nullable_spec.
  - rewrite IH. apply deriv_spec.
Qed.

(** A repetition of one character class. *)
Lemma matches_star_set ranges s : matches (ReStar (ReSet ranges)) s ↔ all_in ranges s = true.
Proof.
  split.
  - intros H. remember (ReStar (ReSet ranges)) as r eqn:Hr.
    induction H as [| | | | | |r0 s1 s2 H1 _ H2 IH2]; try discriminate Hr.
    + reflexivity.
    + injection Hr as ->. apply matches_set_inv in H1 as (c & -> & Hc).
      change (all_in ranges (String c s2) = true). cbn [all_in].
      rewrite Hc. exact (IH2 eq_refl).
  - induction s as [|c s IH]; cbn [all_in]; [constructor|].
    intros H. apply andb_true_iff in H as [Hc Hs].
    apply (matches_star_cons _ (String c "") s); [constructor; exact Hc | exact (IH Hs)].
Qed.

Lemma matches_plus_set ranges s :
  matches (RePlus (ReSet ranges)) s ↔ s ≠ "" ∧ all_in ranges s = true.
Proof.
  unfold RePlus. split.
  - intros H. apply matches_seq_inv in H as (s1 & s2 & -> & H1 & H2).
    apply matches_set_inv in H1 as (c & -> & Hc). apply matches_star_set in H2.
    change (String c "" +:+ s2) with (String c s2). cbn [all_in].
    rewrite Hc, H2. split; [discriminate | reflexivity].
  - intros [Hne Hall]. destruct s as [|c s]; [contradiction|]. cbn [all_in] in Hall.
    apply andb_true_iff in Hall as [Hc Hs].
    apply (matches_seq _ _ (String c "") s); [constructor; exact Hc|].
    apply matches_star_set. exact Hs.
Qed.

Lemma matches_at_least2_set ranges s :
  matches (ReAtLeast2 (ReSet ranges)) s ↔ (2 ≤ String.length s)%nat ∧ all_in ranges s = true.
Proof.
  unfold ReAtLeast2. split.
  - intros H. apply matches_seq_inv in H as (s1 & s2 & -> & H1 & H2).
    apply matches_set_inv in H1 as (c & -> & Hc).
    apply matches_seq_inv in H2 as (s3 & s4 & -> & H3 & H4).
    apply matches_set_inv in H3 as (c' & -> & Hc'). apply matches_star_set in H4.
    change (String c "" +:+ String c' "" +:+ s4) with (String c (String c' s4)).
    cbn [all_in String.length]. rewrite Hc, Hc', H4. split; [lia | reflexivity].
  - intros [Hlen Hall]. destruct s as [|c [|c' s]]; cbn in Hlen; try lia.
    cbn [all_in] in Hall.
    apply andb_true_iff in Hall as [Hc Hall]. apply andb_true_iff in Hall as [Hc' Hs].
    apply (matches_seq _ _ (String c "") (String c' s)); [constructor; exact Hc|].
    apply (matches_seq _ _ (String c' "") s); [constructor; exact Hc'|].
    apply matches_star_set. exact Hs.
Qed.

Lemma matches_char c s : matches (ReChar c) s ↔ s = String c "".
Proof.
  unfold ReChar. split.
  - intros H. apply matches_set_inv in H as (c' & -> & Hc).
    cbn in Hc. rewrite orb_false_r in Hc. apply andb_true_iff in Hc as [H1 H2].
    apply N.leb_le in H1, H2. f_equal.
    rewrite <- (ascii_N_embedding c), <- (ascii_N_embedding c'). f_equal. lia.
  - intros ->. constructor. cbn. rewrite N.leb_refl. reflexivity.
Qed.

Lemma matches_end s : matches ReEnd s ↔ s = "" ∨ s = String "010" "".
Proof.
  unfold ReEnd. split.
  - intros H. apply matches_alt_inv in H as [H|H].
    + left. apply matches_empty_inv. exact H.
    + right. apply matches_char. exact H.
  - intros [->| ->]; [apply matches_alt_l; constructor | apply matches_alt_r, matches_char].
    reflexivity.
Qed.

(** X25.  The addresses [is_valid_email] accepts.  An address is accepted
    exactly when it is a local part, an at sign, a domain, a dot and a
    final part, where the local part is not empty and is made of ASCII
    letters, digits and the signs . _ % + -, the domain is not empty and
    is made of ASCII letters, digits, dots and hyphens, and the final part
    is made of at least two ASCII letters; one newline after the final
    part is accepted as well, and nothing else is. *)
Theorem is_valid_email_shape email :
  Utils.is_valid_email email = true
  ↔ ∃ local domain tld ending,
      email = local +:+ "@" +:+ domain +:+ "." +:+ tld +:+ ending
      ∧ local ≠ "" ∧ all_in Utils.local_chars local = true
      ∧ domain ≠ "" ∧ all_in Utils.domain_chars domain = true
      ∧ (2 ≤ String.length tld)%nat ∧ all_in Utils.letters tld = true
      ∧ (ending = "" ∨ ending = String "010" "").
Proof.
  unfold Utils.is_valid_email. rewrite fullmatch_spec. unfold Utils.email_pattern. split.
  - intros H.
    apply matches_seq_inv in H as (local & s1 & -> & Hlocal & H).
    apply matches_seq_inv in H as (at_ & s2 & -> & Hat & H).
    apply matches_seq_inv in H as (domain & s3 & -> & Hdomain & H).
    apply matches_seq_inv in H as (dot_ & s4 & -> & Hdot & H).
    apply matches_seq_inv in H as (tld & ending & -> & Htld & Hend).
    apply matches_char in Hat as ->. apply matches_char in Hdot as ->.
    apply matches_plus_set in Hlocal as [? ?]. apply matches_plus_set in Hdomain as [? ?].
    apply matches_at_least2_set in Htld as [? ?]. apply matches_end in Hend.
    exists local, domain, tld, ending. repeat split; assumption.
  - intros (local & domain & tld & ending & -> & Hl1 & Hl2 & Hd1 & Hd2 & Ht1 & Ht2 & Hend).
    apply matches_seq; [apply matches_plus_set; auto|].
    apply (matches_seq _ _ "@"); [apply matches_char; reflexivity|].
    apply matches_seq; [apply matches_plus_set; auto|].
    apply (matches_seq _ _ "."); [apply matches_char; reflexivity|].
    apply matches_seq; [apply matches_at_least2_set; auto | apply matches_end; exact Hend].
Qed.

Example is_valid_email_values :
  Utils.is_valid_email "ana@example.org" = true
  ∧ Utils.is_valid_email "a..b@x-y.co" = true
  ∧ Utils.is_valid_email "ana@example.o" = false
  ∧ Utils.is_valid_email "ana@localhost" = false
  ∧ Utils.is_valid_email "ana maria@example.org" = false
  ∧ Utils.is_valid_email "ana@example.org " = false
  ∧ Utils.is_valid_email ("ana@example.org" +:+ String "010" "") = true.
Proof. vm_compute. repeat split. Qed.

End Emails.
